(** * Castle Escape: the game-state engine, embedded and verified

    The repository holds two programs over the same castle:
    - [app.py], the console game: [game_loop] reads one command per
      iteration and keeps the turn counter in a local variable;
    - [main.py], the Streamlit game: the handlers are called from buttons,
      [Player] carries a [turns] attribute and can be saved and loaded.

    Both are embedded below, each in its own module ([App], [Main]) with the
    source's names.  Python objects mutated in place become explicit state
    passing: a handler takes the player and the rooms and returns the
    outcome it printed together with the player and the rooms it left.  A raised
    exception ([KeyError] on [rooms[...]]) is [None]; every handler looks its
    rooms up before it mutates anything, so nothing is lost by dropping the
    state there. *)

From Stdlib Require Import ZArith.
From stdpp Require Import gmap strings list fin_maps.

Local Open Scope Z_scope.

(** ** Rooms and the world *)

(** A room is a Python dict with the keys ["description"], the directions
    that have an exit, ["items"], and optionally ["locked"], ["dark"] and
    (in [main.py]) ["image"].  An absent key is [None]. *)
Record Room := mkRoom {
  description : string;
  north : option string;
  south : option string;
  east : option string;
  west : option string;
  items : list string;
  locked : option bool;
  dark : option bool;
  image : option string
}.

(** [rooms] is a dict from room name to room. *)
Abbreviation World := (gmap string Room).

(** The four keys the code accepts as a direction. *)
Inductive Direction := DNorth | DSouth | DEast | DWest.

Definition direction_key (d : Direction) : string :=
  match d with
  | DNorth => "north" | DSouth => "south" | DEast => "east" | DWest => "west"
  end.

(** [room[direction]] for a direction key; [None] when the key is absent. *)
Definition exit_to (room : Room) (d : Direction) : option string :=
  match d with
  | DNorth => north room | DSouth => south room
  | DEast => east room | DWest => west room
  end.

(** The text typed at "Which direction?" denotes a direction key or not. *)
Definition direction_of_string (s : string) : option Direction :=
  if decide (s = "north") then Some DNorth
  else if decide (s = "south") then Some DSouth
  else if decide (s = "east") then Some DEast
  else if decide (s = "west") then Some DWest
  else None.

(** [[exit for exit in room.keys() if exit in ["north","south","east","west"]]].
    The list is tested for emptiness and membership only (and printed), so
    the order of the dict's keys is not kept. *)
Definition exits_of (room : Room) : list Direction :=
  filter (fun d => is_Some (exit_to room d)) [DNorth; DSouth; DEast; DWest].

(** [room.get("locked", False)] and [room.get("dark", False)]. *)
Definition get_locked (room : Room) : bool := default false (locked room).
Definition get_dark (room : Room) : bool := default false (dark room).

Definition set_items (room : Room) (l : list string) : Room :=
  mkRoom (description room) (north room) (south room) (east room) (west room)
         l (locked room) (dark room) (image room).

(** [room["locked"] = v]. *)
Definition set_locked (room : Room) (v : bool) : Room :=
  mkRoom (description room) (north room) (south room) (east room) (west room)
         (items room) (Some v) (dark room) (image room).

(** ** Python list operations on the inventory and on a room's items *)

(** [l.remove(x)]: drops the first occurrence.  The code calls it only
    after an [x in l] test, so the [ValueError] case never arises; on a list
    without [x] this function returns the list. *)
Fixpoint list_remove (x : string) (l : list string) : list string :=
  match l with
  | [] => []
  | y :: l' => if decide (x = y) then l' else y :: list_remove x l'
  end.

(** [x in l]. *)
Definition list_in (x : string) (l : list string) : bool :=
  bool_decide (x ∈ l).

(** ** What a handler printed

    One constructor per message of the handlers; the two programs word some
    of them differently but branch the same way. *)
Inductive Outcome :=
  | TooDark
  | Looked (lines : list string)
  | NothingOfInterest
  | NothingToPickUp
  | ArmoryLocked
  | PickedUp (item : string)
  | BagFull
  | NotHere (item : string)
  | NoExits
  | Moved (unlocked : bool) (new_position : string)
  | DoorLocked
  | CannotGo
  | BagEmpty
  | NotHeld (item : string)
  | TorchLit
  | AteHerb
  | SwungSword
  | CrowbarPassage
  | CrowbarNothing
  | CannotUse (item : string)
  | Ghost
  | GuardThanks
  | GuardHurt
  | NoOne
  | ShowedInventory
  | ShowedMap
  | ShowedHelp
  | Goodbye
  | InvalidCommand
  | Silent.

(** [move_player] of [main.py] returns [True] exactly on this outcome;
    in [app.py] it is the branch that prints "You move ...". *)
Definition is_moved (o : Outcome) : bool :=
  match o with Moved _ _ => true | _ => false end.

(** * [app.py]: the console game *)
Module App.

Record Player := mkPlayer {
  name : string;
  position : string;
  inventory : list string;
  health : Z;
  visited_rooms : gset string
}.

(** [Player.__init__] *)
Definition init (name : string) : Player :=
  mkPlayer name "Entrance Hall" [] 100 ∅.

Definition set_inventory (p : Player) (l : list string) : Player :=
  mkPlayer (name p) (position p) l (health p) (visited_rooms p).
Definition set_health (p : Player) (h : Z) : Player :=
  mkPlayer (name p) (position p) (inventory p) h (visited_rooms p).
Definition set_position (p : Player) (r : string) : Player :=
  mkPlayer (name p) r (inventory p) (health p) (visited_rooms p).
Definition add_visited (p : Player) (r : string) : Player :=
  mkPlayer (name p) (position p) (inventory p) (health p)
           ({[ r ]} ∪ visited_rooms p).

(** [Player.add_item]: the returned boolean and the player left. *)
Definition add_item (p : Player) (item : string) : bool * Player :=
  if decide (length (inventory p) < 4)%nat
  then (true, set_inventory p (inventory p ++ [item]))
  else (false, p).

(** [Player.has_item] *)
Definition has_item (p : Player) (item : string) : bool :=
  list_in item (inventory p).

(** [Player.remove_item] *)
Definition remove_item (p : Player) (item : string) : bool * Player :=
  if list_in item (inventory p)
  then (true, set_inventory p (list_remove item (inventory p)))
  else (false, p).

(** The room dicts of [initialize_game]. *)
Definition room (d : string) (n s e w : option string) (its : list string)
    (lk dk : option bool) : Room :=
  mkRoom d n s e w its lk dk None.

Definition castle : World :=
  <[ "Entrance Hall" := room "A grand entrance hall with a large oak door behind you."
       (Some "Courtyard") None (Some "Library") None ["Torch"] None None ]>
  (<[ "Courtyard" := room "An overgrown courtyard with a fountain in the center."
       (Some "Guard Tower") (Some "Entrance Hall") (Some "Kitchen") (Some "Armory")
       [] None None ]>
  (<[ "Guard Tower" := room "A tall tower with a view of the entire castle."
       None (Some "Courtyard") None None ["Crowbar"] None None ]>
  (<[ "Library" := room "A dusty library with shelves full of ancient books."
       (Some "Study") None None (Some "Entrance Hall") ["Rusty Key"; "Old Book"]
       None None ]>
  (<[ "Kitchen" := room "A large kitchen with pots and pans hanging from the ceiling."
       None (Some "Dungeon") None (Some "Courtyard") ["Healing Herb"] None None ]>
  (<[ "Armory" := room "A room filled with weapons and armor. The door is locked."
       None None (Some "Courtyard") None ["Sword"] (Some true) None ]>
  (<[ "Study" := room "A small study with a desk and a mysterious map."
       None (Some "Library") None None ["Note"] None None ]>
  (<[ "Dungeon" := room "A dark, damp dungeon. It's hard to see without light."
       (Some "Kitchen") None (Some "Secret Passage") None [] None (Some true) ]>
  (<[ "Secret Passage" := room "A hidden passage behind a bookcase."
       (Some "Throne Room") None None (Some "Dungeon") [] None None ]>
  (<[ "Throne Room" := room "The castle's throne room with a glittering golden crown."
       None (Some "Secret Passage") None None ["Golden Crown"] None None ]>
  ∅))))))))).

(** [initialize_game]: the name is what was typed (stripped); the player
    starts in the Entrance Hall, which is marked visited. *)
Definition initialize_game (name : string) : Player * World :=
  let player := init name in
  (add_visited player (position player), castle).

(** The darkness gate shared by [look_around] and [pick_up_item]:
    [player.position == "Dungeon" and room.get("dark", False)] and
    [not player.has_item("Torch")]. *)
Definition too_dark (p : Player) (room : Room) : bool :=
  bool_decide (position p = "Dungeon") && get_dark room
  && negb (has_item p "Torch").

(** The line [look_around] prints for an item; none for an unknown item. *)
Definition flavor (item : string) : option string :=
  if decide (item = "Torch") then
    Some "A Torch hangs on the wall, it could be useful in dark places."
  else if decide (item = "Rusty Key") then
    Some "A Rusty Key sits on the desk. It might open something important."
  else if decide (item = "Crowbar") then
    Some "A sturdy Crowbar leans against the wall. It could pry things open."
  else if decide (item = "Healing Herb") then
    Some "Fresh Healing Herb grows in a crack in the wall."
  else if decide (item = "Golden Crown") then
    Some "The Golden Crown glitters on the throne. This is what you came for!"
  else if decide (item = "Sword") then
    Some "A sharp Sword hangs on the wall."
  else if decide (item = "Note") then
    Some "A Note on the desk reads: 'The passage opens when the moon is high'"
  else if decide (item = "Old Book") then
    Some "An Old Book titled 'History of the Castle'"
  else None.

Definition look_around (p : Player) (rooms : World)
    : option (Outcome * Player * World) :=
  room ← rooms !! position p;
  if too_dark p room then Some (TooDark, p, rooms)
  else match items room with
       | [] => Some (NothingOfInterest, p, rooms)
       | _ => Some (Looked (omap flavor (items room)), p, rooms)
       end.

(** [pick_up_item]; [item] is the value of the local variable [item],
    the typed text after [.title()].  It is read only when the three
    guards have passed. *)
Definition pick_up_item (p : Player) (rooms : World) (item : string)
    : option (Outcome * Player * World) :=
  room ← rooms !! position p;
  match items room with
  | [] => Some (NothingToPickUp, p, rooms)
  | _ =>
    if bool_decide (position p = "Armory") && get_locked room
    then Some (ArmoryLocked, p, rooms)
    else if too_dark p room then Some (TooDark, p, rooms)
    else if list_in item (items room) then
      match add_item p item with
      | (true, p') =>
          Some (PickedUp item, p',
                <[ position p := set_items room (list_remove item (items room)) ]> rooms)
      | (false, p') => Some (BagFull, p', rooms)
      end
    else Some (NotHere item, p, rooms)
  end.

(** The tail of [move_player]'s success path. *)
Definition enter (p : Player) (new_position : string) : Player :=
  add_visited (set_position p new_position) new_position.

(** [move_player]; [direction] is the typed text after [.lower()]. *)
Definition move_player (p : Player) (rooms : World) (direction : string)
    : option (Outcome * Player * World) :=
  room ← rooms !! position p;
  match exits_of room with
  | [] => Some (NoExits, p, rooms)
  | _ =>
    match direction_of_string direction ≫= exit_to room with
    | Some new_position =>
        if decide (new_position = "Armory") then
          armory ← rooms !! "Armory";
          if get_locked armory then
            if has_item p "Rusty Key" then
              let rooms' := <[ "Armory" := set_locked armory false ]> rooms in
              let p' := snd (remove_item p "Rusty Key") in
              Some (Moved true new_position, enter p' new_position, rooms')
            else Some (DoorLocked, p, rooms)
          else Some (Moved false new_position, enter p new_position, rooms)
        else Some (Moved false new_position, enter p new_position, rooms)
    | None => Some (CannotGo, p, rooms)
    end
  end.

(** [use_item]; [item] is the typed text after [.title()]. *)
Definition use_item (p : Player) (item : string) : Outcome * Player :=
  match inventory p with
  | [] => (BagEmpty, p)
  | _ =>
    if negb (has_item p item) then (NotHeld item, p)
    else if decide (item = "Torch") then (TorchLit, p)
    else if decide (item = "Healing Herb") then
      let p1 := set_health p (Z.min 100 (health p + 30)) in
      (AteHerb, snd (remove_item p1 "Healing Herb"))
    else if decide (item = "Sword") then (SwungSword, p)
    else if decide (item = "Crowbar") then
      if decide (position p = "Study") then (CrowbarPassage, p)
      else (CrowbarNothing, p)
    else (CannotUse item, p)
  end.

Definition talk_to_character (p : Player) : Outcome * Player :=
  if decide (position p = "Courtyard") then (Ghost, p)
  else if decide (position p = "Guard Tower") then
    if has_item p "Healing Herb"
    then (GuardThanks, snd (remove_item p "Healing Herb"))
    else (GuardHurt, p)
  else (NoOne, p).

(** The score printed on victory. *)
Definition final_score (p : Player) : Z :=
  Z.of_nat (size (visited_rooms p)) * 10 + Z.of_nat (length (inventory p)) * 5.

(** [check_win_condition]: the returned boolean, and the "Final Score"
    it prints when it returns [True]. *)
Definition check_win_condition (p : Player) : bool * option Z :=
  if bool_decide (position p = "Throne Room") && has_item p "Golden Crown"
  then (true, Some (final_score p))
  else (false, None).

(** The command typed at "What would you like to do?", with the text the
    handler goes on to read where it reads one. *)
Inductive Command :=
  | CMove (direction : string)
  | CLook
  | CTake (item : string)
  | CBag
  | CUse (item : string)
  | CTalk
  | CMap
  | CHelp
  | CQuit
  | COther.

(** The [if action == ...] chain of [game_loop], [quit] apart. *)
Definition dispatch (c : Command) (p : Player) (rooms : World)
    : option (Outcome * Player * World) :=
  match c with
  | CMove d => move_player p rooms d
  | CLook => look_around p rooms
  | CTake i => pick_up_item p rooms i
  | CBag => Some (ShowedInventory, p, rooms)
  | CUse i => let '(o, p') := use_item p i in Some (o, p', rooms)
  | CTalk => let '(o, p') := talk_to_character p in Some (o, p', rooms)
  | CMap => Some (ShowedMap, p, rooms)
  | CHelp => Some (ShowedHelp, p, rooms)
  | CQuit => Some (Goodbye, p, rooms)
  | COther => Some (InvalidCommand, p, rooms)
  end.

(** The state of a running [game_loop]: its two arguments and its local
    [turns]. *)
Record Session := mkSession {
  player : Player;
  rooms : World;
  turns : Z
}.

(** How [game_loop] returned: [Won] is [return True]; [Quit] and [Lost]
    are the two [return False]. *)
Inductive Ending := Won | Lost | Quit.

Definition returned (e : Ending) : bool :=
  match e with Won => true | _ => false end.

(** One iteration of the [while True] of [game_loop]: the outcome of the
    command, the session left, and the ending when the loop returned.
    [display_current_room] only prints, but indexes [rooms] first.  The
    "strange noises" line of every tenth turn changes no state and is
    left out. *)
Definition iteration (c : Command) (s : Session)
    : option (Outcome * Session * option Ending) :=
  let turns := turns s + 1 in
  _ ← rooms s !! position (player s);
  '(o, p, w) ← dispatch c (player s) (rooms s);
  match c with
  | CQuit => Some (o, mkSession p w turns, Some Quit)
  | _ =>
    if fst (check_win_condition p) then Some (o, mkSession p w turns, Some Won)
    else if decide (turns > 50) then
      let p' := set_health p (health p - 5) in
      if decide (health p' <= 0) then Some (o, mkSession p' w turns, Some Lost)
      else Some (o, mkSession p' w turns, None)
    else Some (o, mkSession p w turns, None)
  end.

(** Where a run of [game_loop] stands after the commands supplied: at the
    head of the [while] with all of them processed (the next [turns += 1]
    not yet done), returned, or left by an exception. *)
Inductive Run :=
  | Waiting (s : Session)
  | Returned (e : Ending) (s : Session)
  | Raised.

(** The loop on a stream of commands, with the outcomes printed so far.
    Commands after a return or an exception are never read. *)
Fixpoint loop (cmds : list Command) (s : Session) : list Outcome * Run :=
  match cmds with
  | [] => ([], Waiting s)
  | c :: cmds' =>
    match iteration c s with
    | None => ([], Raised)
    | Some (o, s', Some e) => ([o], Returned e s')
    | Some (o, s', None) =>
        let '(os, r) := loop cmds' s' in (o :: os, r)
    end
  end.

(** [game_loop(player, rooms)]: [turns = 0], then the loop. *)
Definition game_loop (p : Player) (w : World) (cmds : list Command)
    : list Outcome * Run :=
  loop cmds (mkSession p w 0).

(** [main]: [initialize_game], then [game_loop]. *)
Definition main (name : string) (cmds : list Command) : list Outcome * Run :=
  let '(p, w) := initialize_game name in game_loop p w cmds.

End App.

(** * [main.py]: the Streamlit game *)
Module Main.

Record Player := mkPlayer {
  name : string;
  position : string;
  inventory : list string;
  health : Z;
  visited_rooms : gset string;
  turns : Z
}.

(** [Player.__init__]: with a falsy name ([None] or the empty string)
    Python sets no attribute at all and returns the bare object.  That
    object has none of the fields of the record, so the model has no value
    for it and answers [None]; [main] builds a player from a name that is
    non-empty after [strip] only. *)
Definition init (name : string) : option Player :=
  if decide (name = "") then None
  else Some (mkPlayer name "Entrance Hall" [] 100 {[ "Entrance Hall" ]} 0).

Definition set_inventory (p : Player) (l : list string) : Player :=
  mkPlayer (name p) (position p) l (health p) (visited_rooms p) (turns p).
Definition set_health (p : Player) (h : Z) : Player :=
  mkPlayer (name p) (position p) (inventory p) h (visited_rooms p) (turns p).
Definition set_position (p : Player) (r : string) : Player :=
  mkPlayer (name p) r (inventory p) (health p) (visited_rooms p) (turns p).
Definition set_visited_rooms (p : Player) (v : gset string) : Player :=
  mkPlayer (name p) (position p) (inventory p) (health p) v (turns p).
Definition set_turns (p : Player) (t : Z) : Player :=
  mkPlayer (name p) (position p) (inventory p) (health p) (visited_rooms p) t.
Definition add_visited (p : Player) (r : string) : Player :=
  set_visited_rooms p ({[ r ]} ∪ visited_rooms p).

(** The values of the dict [to_dict] builds. *)
Inductive Value :=
  | VStr (s : string)
  | VInt (z : Z)
  | VList (l : list string).

Definition as_str (v : Value) : option string :=
  match v with VStr s => Some s | _ => None end.
Definition as_int (v : Value) : option Z :=
  match v with VInt z => Some z | _ => None end.
Definition as_list (v : Value) : option (list string) :=
  match v with VList l => Some l | _ => None end.

(** [Player.to_dict]; [list(self.visited_rooms)] enumerates the set in
    some order, here that of [elements]. *)
Definition to_dict (p : Player) : gmap string Value :=
  <[ "name" := VStr (name p) ]>
  (<[ "position" := VStr (position p) ]>
  (<[ "inventory" := VList (inventory p) ]>
  (<[ "health" := VInt (health p) ]>
  (<[ "visited_rooms" := VList (elements (visited_rooms p)) ]>
  (<[ "turns" := VInt (turns p) ]> ∅))))).

(** [Player.from_dict]: [None] for a missing key ([KeyError]) and for a
    value of another type than [to_dict] writes (the record is typed).
    For a falsy name Python raises nothing: [cls(data['name'])] sets no
    attribute, the five assignments follow, and the object returned has
    position, inventory, health, visited rooms and turns and no [name]
    attribute.  The record cannot hold such an object, so there too the
    model answers [None]: on an empty name [None] stands for "no player of
    this model", not for an exception. *)
Definition from_dict (data : gmap string Value) : option Player :=
  n ← data !! "name" ≫= as_str;
  player ← init n;
  pos ← data !! "position" ≫= as_str;
  let player := set_position player pos in
  inv ← data !! "inventory" ≫= as_list;
  let player := set_inventory player inv in
  h ← data !! "health" ≫= as_int;
  let player := set_health player h in
  vis ← data !! "visited_rooms" ≫= as_list;
  let player := set_visited_rooms player (list_to_set vis) in
  t ← data !! "turns" ≫= as_int;
  Some (set_turns player t).

(** [Player.add_item] *)
Definition add_item (p : Player) (item : string) : bool * Player :=
  if decide (length (inventory p) < 4)%nat
  then (true, set_inventory p (inventory p ++ [item]))
  else (false, p).

(** [Player.has_item] *)
Definition has_item (p : Player) (item : string) : bool :=
  list_in item (inventory p).

(** [Player.remove_item] *)
Definition remove_item (p : Player) (item : string) : bool * Player :=
  if list_in item (inventory p)
  then (true, set_inventory p (list_remove item (inventory p)))
  else (false, p).

Definition room (d : string) (n s e w : option string) (its : list string)
    (lk dk : option bool) (img : string) : Room :=
  mkRoom d n s e w its lk dk (Some img).

(** [initialize_game] *)
Definition initialize_game : World :=
  <[ "Entrance Hall" := room "🏰 A grand entrance hall with a large oak door behind you. Dusty tapestries hang on the walls."
       (Some "Courtyard") None (Some "Library") None ["Torch"] None None "🏰" ]>
  (<[ "Courtyard" := room "🌿 An overgrown courtyard with a cracked fountain in the center. Vines cover the stone walls."
       (Some "Guard Tower") (Some "Entrance Hall") (Some "Kitchen") (Some "Armory")
       [] None None "🌿" ]>
  (<[ "Guard Tower" := room "🗼 A tall tower with a view of the entire castle. Arrow slits let in shafts of light."
       None (Some "Courtyard") None None ["Crowbar"] None None "🗼" ]>
  (<[ "Library" := room "📚 A dusty library with shelves full of ancient books. A large desk sits in the center."
       (Some "Study") None None (Some "Entrance Hall") ["Rusty Key"; "Old Book"]
       None None "📚" ]>
  (<[ "Kitchen" := room "🍳 A large kitchen with pots and pans hanging from the ceiling. A cold hearth dominates one wall."
       None (Some "Dungeon") None (Some "Courtyard") ["Healing Herb"] None None "🍳" ]>
  (<[ "Armory" := room "⚔️ A room filled with weapons and armor. The door is locked with an old iron lock."
       None None (Some "Courtyard") None ["Sword"] (Some true) None "⚔️" ]>
  (<[ "Study" := room "🖋️ A small study with a desk and a mysterious map. Quills and ink pots are scattered about."
       None (Some "Library") None None ["Note"] None None "🖋️" ]>
  (<[ "Dungeon" := room "🔒 A dark, damp dungeon. It's hard to see without light. Chains hang from the walls."
       (Some "Kitchen") None (Some "Secret Passage") None [] None (Some true) "🔒" ]>
  (<[ "Secret Passage" := room "🕯️ A hidden passage behind a bookcase. Cobwebs brush against your face as you walk."
       (Some "Throne Room") None None (Some "Dungeon") [] None None "🕯️" ]>
  (<[ "Throne Room" := room "👑 The castle's throne room with a glittering golden crown on an ornate throne."
       None (Some "Secret Passage") None None ["Golden Crown"] None None "👑" ]>
  ∅))))))))).

(** The tail of [move_player]'s success path. *)
Definition enter (p : Player) (new_position : string) : Player :=
  let p := add_visited (set_position p new_position) new_position in
  set_turns p (turns p + 1).

(** [move_player].  Its only caller, [display_current_room], passes one of
    the four direction keys, hence the type of [direction].  The returned
    boolean is [is_moved] of the outcome; the saves to the database are
    not part of the state. *)
Definition move_player (p : Player) (rooms : World) (direction : Direction)
    : option (Outcome * Player * World) :=
  room ← rooms !! position p;
  match exit_to room direction with
  | Some new_position =>
      if decide (new_position = "Armory") then
        armory ← rooms !! "Armory";
        if get_locked armory then
          if has_item p "Rusty Key" then
            let rooms' := <[ "Armory" := set_locked armory false ]> rooms in
            let p' := snd (remove_item p "Rusty Key") in
            Some (Moved true new_position, enter p' new_position, rooms')
          else Some (DoorLocked, p, rooms)
        else Some (Moved false new_position, enter p new_position, rooms)
      else Some (Moved false new_position, enter p new_position, rooms)
  | None => Some (CannotGo, p, rooms)
  end.

Definition too_dark (p : Player) (room : Room) : bool :=
  bool_decide (position p = "Dungeon") && get_dark room
  && negb (has_item p "Torch").

(** [pick_up_item] *)
Definition pick_up_item (p : Player) (rooms : World) (item_name : string)
    : option (Outcome * Player * World) :=
  room ← rooms !! position p;
  match items room with
  | [] => Some (NothingToPickUp, p, rooms)
  | _ =>
    if bool_decide (position p = "Armory") && get_locked room
    then Some (ArmoryLocked, p, rooms)
    else if too_dark p room then Some (TooDark, p, rooms)
    else if list_in item_name (items room) then
      match add_item p item_name with
      | (true, p') =>
          Some (PickedUp item_name, p',
                <[ position p := set_items room (list_remove item_name (items room)) ]> rooms)
      | (false, p') => Some (BagFull, p', rooms)
      end
    else Some (NotHere item_name, p, rooms)
  end.

Definition flavor (item : string) : option string :=
  if decide (item = "Torch") then
    Some "A Torch hangs on the wall, it could be useful in dark places."
  else if decide (item = "Rusty Key") then
    Some "A Rusty Key sits on the desk. It might open something important."
  else if decide (item = "Crowbar") then
    Some "A sturdy Crowbar leans against the wall. It could pry things open."
  else if decide (item = "Healing Herb") then
    Some "Fresh Healing Herb grows in a crack in the wall. It smells restorative."
  else if decide (item = "Golden Crown") then
    Some "The Golden Crown glitters on the throne. This is what you came for!"
  else if decide (item = "Sword") then
    Some "A sharp Sword hangs on the wall. It looks well-maintained."
  else if decide (item = "Note") then
    Some "A Note on the desk reads: 'The passage opens when the moon is high'"
  else if decide (item = "Old Book") then
    Some "An Old Book titled 'History of the Castle'. It might contain clues."
  else None.

Definition look_around (p : Player) (rooms : World)
    : option (Outcome * Player * World) :=
  room ← rooms !! position p;
  if too_dark p room then Some (TooDark, p, rooms)
  else match items room with
       | [] => Some (NothingOfInterest, p, rooms)
       | _ => Some (Looked (omap flavor (items room)), p, rooms)
       end.

(** [use_item]: [item] is the entry chosen in the select box and
    [pressed] the value of [st.button("Use Item")]. *)
Definition use_item (p : Player) (item : string) (pressed : bool)
    : Outcome * Player :=
  match inventory p with
  | [] => (BagEmpty, p)
  | _ =>
    if pressed then
      if negb (has_item p item) then (NotHeld item, p)
      else if decide (item = "Torch") then (TorchLit, p)
      else if decide (item = "Healing Herb") then
        let p1 := set_health p (Z.min 100 (health p + 30)) in
        (AteHerb, snd (remove_item p1 "Healing Herb"))
      else if decide (item = "Sword") then (SwungSword, p)
      else if decide (item = "Crowbar") then
        if decide (position p = "Study") then (CrowbarPassage, p)
        else (CrowbarNothing, p)
      else (CannotUse item, p)
    else (Silent, p)
  end.

Definition talk_to_character (p : Player) : Outcome * Player :=
  if decide (position p = "Courtyard") then (Ghost, p)
  else if decide (position p = "Guard Tower") then
    if has_item p "Healing Herb"
    then (GuardThanks, snd (remove_item p "Healing Herb"))
    else (GuardHurt, p)
  else (NoOne, p).

(** [score] of [check_win_condition] (and of [save_high_score]). *)
Definition final_score (p : Player) : Z :=
  Z.of_nat (size (visited_rooms p)) * 10 + Z.of_nat (length (inventory p)) * 5.

(** [check_win_condition]: the returned boolean, and the score it shows
    and records when it returns [True].  It does not read [rooms]. *)
Definition check_win_condition (p : Player) (rooms : World) : bool * option Z :=
  if bool_decide (position p = "Throne Room") && has_item p "Golden Crown"
  then (true, Some (final_score p))
  else (false, None).

(** What the buttons of the game page trigger. *)
Inductive Action :=
  | AMove (direction : Direction)
  | ATake (item : string)
  | ALook
  | ATalk
  | AUse (item : string) (pressed : bool)
  | AMap.

Definition step (a : Action) (p : Player) (rooms : World)
    : option (Outcome * Player * World) :=
  match a with
  | AMove d => move_player p rooms d
  | ATake i => pick_up_item p rooms i
  | ALook => look_around p rooms
  | ATalk => let '(o, p') := talk_to_character p in Some (o, p', rooms)
  | AUse i b => let '(o, p') := use_item p i b in Some (o, p', rooms)
  | AMap => Some (ShowedMap, p, rooms)
  end.

(** A sequence of button presses on one session state, with the outcomes
    shown; [None] when a handler raised.  The page stops offering the
    buttons once [check_win_condition] holds, so the sequences the page
    admits are among those run here. *)
Fixpoint run (acts : list Action) (p : Player) (rooms : World)
    : option (list Outcome * Player * World) :=
  match acts with
  | [] => Some ([], p, rooms)
  | a :: acts' =>
      '(o, p', rooms') ← step a p rooms;
      '(os, p'', rooms'') ← run acts' p' rooms';
      Some (o :: os, p'', rooms'')
  end.

End Main.

(** * Readings of the handlers used in the statements below *)

(** What [pick_up_item] does once its three guards have passed. *)
Definition App_take_in_the_light (p : App.Player) (rooms : World) (room : Room)
    (item : string) : Outcome * App.Player * World :=
  if list_in item (items room) then
    if decide (length (App.inventory p) < 4)%nat then
      (PickedUp item, App.set_inventory p (App.inventory p ++ [item]),
       <[ App.position p := set_items room (list_remove item (items room)) ]> rooms)
    else (BagFull, p, rooms)
  else (NotHere item, p, rooms).

Definition Main_take_in_the_light (p : Main.Player) (rooms : World) (room : Room)
    (item : string) : Outcome * Main.Player * World :=
  if list_in item (items room) then
    if decide (length (Main.inventory p) < 4)%nat then
      (PickedUp item, Main.set_inventory p (Main.inventory p ++ [item]),
       <[ Main.position p := set_items room (list_remove item (items room)) ]> rooms)
    else (BagFull, p, rooms)
  else (NotHere item, p, rooms).

(** ** What one action can do to position, inventory and rooms

    Both programs change these three in the same few ways; [effect] lists
    them, and the invariants of play are proved once, over [effect]. *)
Inductive effect (pos : string) (inv : list string) (w : World)
    : Outcome → string → list string → World → Prop :=
  | eff_keep (o : Outcome) (inv' : list string) :
      (length inv' ≤ length inv)%nat →
      o ≠ ArmoryLocked → is_moved o = false →
      effect pos inv w o pos inv' w
  | eff_armory_locked (room : Room) :
      pos = "Armory" → w !! pos = Some room → get_locked room = true →
      effect pos inv w ArmoryLocked pos inv w
  | eff_take (room : Room) (item : string) :
      w !! pos = Some room → items room ≠ [] →
      (length inv < 4)%nat →
      effect pos inv w (PickedUp item) pos (inv ++ [item])
             (<[ pos := set_items room (list_remove item (items room)) ]> w)
  | eff_move (room : Room) (d : Direction) (t : string) :
      w !! pos = Some room → exit_to room d = Some t →
      (t = "Armory" → ∃ armory, w !! "Armory" = Some armory
                                ∧ get_locked armory = false) →
      effect pos inv w (Moved false t) t inv w
  | eff_unlock (room : Room) (d : Direction) (armory : Room) :
      w !! pos = Some room → exit_to room d = Some "Armory" →
      w !! "Armory" = Some armory → get_locked armory = true →
      "Rusty Key" ∈ inv →
      effect pos inv w (Moved true "Armory") "Armory"
             (list_remove "Rusty Key" inv)
             (<[ "Armory" := set_locked armory false ]> w).

(** ** Invariants of play *)

(** The bag holds at most four items. *)
Definition bag_ok (inv : list string) : Prop := (length inv ≤ 4)%nat.

(** Whoever stands in the Armory stands in an unlocked Armory. *)
Definition armory_open (pos : string) (w : World) : Prop :=
  pos = "Armory" → ∀ armory, w !! "Armory" = Some armory → get_locked armory = false.

(** The Dungeon holds no item. *)
Definition dungeon_empty (w : World) : Prop :=
  ∀ room, w !! "Dungeon" = Some room → items room = [].

(** Every name the handlers index [rooms] with is a key of it: the
    position, the Armory, and the target of every exit. *)
Definition closed (pos : string) (w : World) : Prop :=
  is_Some (w !! pos) ∧ is_Some (w !! "Armory")
  ∧ ∀ n room d t, w !! n = Some room → exit_to room d = Some t → is_Some (w !! t).

Definition sound (pos : string) (inv : list string) (w : World) : Prop :=
  bag_ok inv ∧ armory_open pos w ∧ dungeon_empty w ∧ closed pos w.

(** The invariants on a session of the console game and on a state of
    the Streamlit game. *)
Definition App_sound (s : App.Session) : Prop :=
  sound (App.position (App.player s)) (App.inventory (App.player s)) (App.rooms s).

Definition Main_sound (p : Main.Player) (w : World) : Prop :=
  sound (Main.position p) (Main.inventory p) w.

(** The Streamlit game from "Start New Game": the player [Player(name)] on
    the rooms of [initialize_game], then the buttons pressed. *)
Definition Main_new_game (name : string) (acts : list Main.Action)
    : option (list Outcome * Main.Player * World) :=
  p ← Main.init name; Main.run acts p Main.initialize_game.


(** The number of successful moves among the outcomes of a play. *)
Definition moves_made (os : list Outcome) : Z :=
  Z.of_nat (length (filter (fun o => is_moved o = true) os)).

(** Fifty-one successful moves between the Entrance Hall and the Courtyard
    of the Streamlit game. *)
Definition fifty_one_moves : list Main.Action :=
  concat (replicate 25 [Main.AMove DNorth; Main.AMove DSouth]) ++ [Main.AMove DNorth].

(** ** Reading the end of a play *)

(** The session of a [game_loop] that processed its commands and goes on. *)
Definition App_waiting (r : list Outcome * App.Run) : option App.Session :=
  match snd r with App.Waiting s => Some s | _ => None end.

(** The ending and the session of a [game_loop] that returned. *)
Definition App_returned (r : list Outcome * App.Run)
    : option (App.Ending * App.Session) :=
  match snd r with App.Returned e s => Some (e, s) | _ => None end.

(** What a handler answered. *)
Definition outcome_of {P : Type} (r : option (Outcome * P * World)) : option Outcome :=
  (λ x, fst (fst x)) <$> r.

(** Successful moves, [turns] and health at the end of a play of the
    Streamlit game. *)
Definition Main_stats (r : option (list Outcome * Main.Player * World))
    : option (Z * Z * Z) :=
  (λ x, (moves_made (fst (fst x)), Main.turns (snd (fst x)),
         Main.health (snd (fst x)))) <$> r.

(** ** Proof steps used more than once *)

(** An action that moved nobody, took nothing and left the rooms. *)
Ltac keep_effect :=
  apply eff_keep; simpl; first [ lia | done ].

(** The rooms of a castle written as a chain of inserts, one goal each. *)
Ltac castle_rooms Hn :=
  repeat (apply lookup_insert_Some in Hn as [[<- <-]|[_ Hn]]);
  try (by rewrite lookup_empty in Hn).

(** * Facts about the list operations *)

Lemma list_in_true (x : string) (l : list string) : list_in x l = true ↔ x ∈ l.
Proof. unfold list_in. apply bool_decide_eq_true. Qed.

Lemma list_in_false (x : string) (l : list string) : list_in x l = false ↔ x ∉ l.
Proof. unfold list_in. apply bool_decide_eq_false. Qed.

(** [l.remove(x)] cuts the first [x] out and keeps the rest in order. *)
Lemma list_remove_split (x : string) (l : list string) :
  x ∈ l →
  ∃ l1 l2, l = l1 ++ (x :: l2) ∧ (x ∉ l1) ∧ list_remove x l = l1 ++ l2.
Proof.
  induction l as [|y l IH]; intros Hin.
  - by apply elem_of_nil in Hin.
  - simpl. destruct (decide (x = y)) as [->|Hne].
    + exists [], l. split_and!; [done | apply not_elem_of_nil | done].
    + apply elem_of_cons in Hin as [?|Hin]; [done|].
      destruct (IH Hin) as (l1 & l2 & -> & Hnot & ->).
      exists (y :: l1), l2. split_and!; [done | | done].
      rewrite elem_of_cons. tauto.
Qed.

Lemma list_remove_length (x : string) (l : list string) :
  x ∈ l → S (length (list_remove x l)) = length l.
Proof.
  intros Hin. destruct (list_remove_split x l Hin) as (l1 & l2 & -> & _ & ->).
  rewrite !length_app. simpl. lia.
Qed.

Lemma list_remove_length_le (x : string) (l : list string) :
  (length (list_remove x l) ≤ length l)%nat.
Proof.
  induction l as [|y l IH]; simpl; [lia|].
  destruct (decide (x = y)); simpl; lia.
Qed.

(** * The win check *)

Lemma App_check_win_true (p : App.Player) :
  fst (App.check_win_condition p) = true ↔
  App.position p = "Throne Room" ∧ "Golden Crown" ∈ App.inventory p.
Proof.
  unfold App.check_win_condition, App.has_item.
  destruct (bool_decide (App.position p = "Throne Room")) eqn:Hpos;
    destruct (list_in "Golden Crown" (App.inventory p)) eqn:Hin; simpl.
  - apply bool_decide_eq_true in Hpos. apply list_in_true in Hin. tauto.
  - apply list_in_false in Hin. split; [done | tauto].
  - apply bool_decide_eq_false in Hpos. split; [done | tauto].
  - apply bool_decide_eq_false in Hpos. split; [done | tauto].
Qed.

Lemma Main_check_win_true (p : Main.Player) (rooms : World) :
  fst (Main.check_win_condition p rooms) = true ↔
  Main.position p = "Throne Room" ∧ "Golden Crown" ∈ Main.inventory p.
Proof.
  unfold Main.check_win_condition, Main.has_item.
  destruct (bool_decide (Main.position p = "Throne Room")) eqn:Hpos;
    destruct (list_in "Golden Crown" (Main.inventory p)) eqn:Hin; simpl.
  - apply bool_decide_eq_true in Hpos. apply list_in_true in Hin. tauto.
  - apply list_in_false in Hin. split; [done | tauto].
  - apply bool_decide_eq_false in Hpos. split; [done | tauto].
  - apply bool_decide_eq_false in Hpos. split; [done | tauto].
Qed.

(** The shortest winning play of the console game: six rooms visited, the
    Torch and the Golden Crown in the bag, and a final score of 70. *)
Example App_shortest_win :
  let r := App.main "Ann" [App.CTake "Torch"; App.CMove "north"; App.CMove "east";
                           App.CMove "south"; App.CMove "east"; App.CMove "north";
                           App.CTake "Golden Crown"] in
  fst r = [PickedUp "Torch"; Moved false "Courtyard"; Moved false "Kitchen";
           Moved false "Dungeon"; Moved false "Secret Passage";
           Moved false "Throne Room"; PickedUp "Golden Crown"]
  ∧ ('(e, s) ← App_returned r;
     Some (e, size (App.visited_rooms (App.player s)),
           App.inventory (App.player s),
           App.check_win_condition (App.player s)))
    = Some (App.Won, 6%nat, ["Torch"; "Golden Crown"], (true, Some 70)).
Proof. split; vm_compute; reflexivity. Qed.

(** C1.  In both programs [check_win_condition] returns [True] exactly when
    the player stands in the Throne Room and holds the Golden Crown, and the
    score it then reports is ten times the number of visited rooms plus five
    times the number of items held; with six rooms and two items that is 70.
    When it returns [False] it reports no score. *)
Theorem check_win_condition_spec :
  (∀ p : App.Player,
     (fst (App.check_win_condition p) = true ↔
      App.position p = "Throne Room" ∧ "Golden Crown" ∈ App.inventory p)
     ∧ snd (App.check_win_condition p) =
       (if fst (App.check_win_condition p)
        then Some (10 * Z.of_nat (size (App.visited_rooms p))
                   + 5 * Z.of_nat (length (App.inventory p)))
        else None)
     ∧ (fst (App.check_win_condition p) = true →
        size (App.visited_rooms p) = 6%nat → length (App.inventory p) = 2%nat →
        snd (App.check_win_condition p) = Some 70))
  ∧ (∀ (p : Main.Player) (rooms : World),
     (fst (Main.check_win_condition p rooms) = true ↔
      Main.position p = "Throne Room" ∧ "Golden Crown" ∈ Main.inventory p)
     ∧ snd (Main.check_win_condition p rooms) =
       (if fst (Main.check_win_condition p rooms)
        then Some (10 * Z.of_nat (size (Main.visited_rooms p))
                   + 5 * Z.of_nat (length (Main.inventory p)))
        else None)
     ∧ (fst (Main.check_win_condition p rooms) = true →
        size (Main.visited_rooms p) = 6%nat → length (Main.inventory p) = 2%nat →
        snd (Main.check_win_condition p rooms) = Some 70)).
Proof.
  split.
  - intros p. split; [apply App_check_win_true|].
    assert (Hs : snd (App.check_win_condition p) =
       (if fst (App.check_win_condition p)
        then Some (10 * Z.of_nat (size (App.visited_rooms p))
                   + 5 * Z.of_nat (length (App.inventory p)))
        else None)).
    { unfold App.check_win_condition, App.final_score.
      destruct (_ && _); simpl; [f_equal; lia | done]. }
    split; [exact Hs|].
    intros Hw Hv Hi. rewrite Hs, Hw, Hv, Hi. reflexivity.
  - intros p rooms. split; [apply Main_check_win_true|].
    assert (Hs : snd (Main.check_win_condition p rooms) =
       (if fst (Main.check_win_condition p rooms)
        then Some (10 * Z.of_nat (size (Main.visited_rooms p))
                   + 5 * Z.of_nat (length (Main.inventory p)))
        else None)).
    { unfold Main.check_win_condition, Main.final_score.
      destruct (_ && _); simpl; [f_equal; lia | done]. }
    split; [exact Hs|].
    intros Hw Hv Hi. rewrite Hs, Hw, Hv, Hi. reflexivity.
Qed.

(** The player of the shortest winning play, in either game. *)
Lemma check_win_condition_spec_witness :
  let visited : gset string :=
    list_to_set ["Entrance Hall"; "Courtyard"; "Kitchen"; "Dungeon";
                 "Secret Passage"; "Throne Room"] in
  let pa := App.mkPlayer "Ann" "Throne Room" ["Torch"; "Golden Crown"] 100 visited in
  let pm := Main.mkPlayer "Ann" "Throne Room" ["Torch"; "Golden Crown"] 100 visited 5 in
  (fst (App.check_win_condition pa) = true
   ∧ size (App.visited_rooms pa) = 6%nat
   ∧ length (App.inventory pa) = 2%nat
   ∧ snd (App.check_win_condition pa) = Some 70)
  ∧ (fst (Main.check_win_condition pm Main.initialize_game) = true
     ∧ size (Main.visited_rooms pm) = 6%nat
     ∧ length (Main.inventory pm) = 2%nat
     ∧ snd (Main.check_win_condition pm Main.initialize_game) = Some 70).
Proof.
  intros visited pa pm.
  assert (Hv : size visited = 6%nat) by (vm_compute; reflexivity).
  assert (H1 : fst (App.check_win_condition pa) = true) by reflexivity.
  assert (H2 : fst (Main.check_win_condition pm Main.initialize_game) = true)
    by reflexivity.
  assert (H3 : length (App.inventory pa) = 2%nat) by reflexivity.
  assert (H4 : length (Main.inventory pm) = 2%nat) by reflexivity.
  split; (split_and!; [assumption | exact Hv | assumption | ]).
  - exact (proj2 (proj2 (proj1 check_win_condition_spec pa)) H1 Hv H3).
  - exact (proj2 (proj2 (proj2 check_win_condition_spec pm Main.initialize_game))
             H2 Hv H4).
Defined.

(** * Saving and loading a player *)

Lemma Main_from_dict_to_dict (p : Main.Player) :
  Main.name p ≠ "" → Main.from_dict (Main.to_dict p) = Some p.
Proof.
  intros Hname. destruct p as [n pos inv h vis t]. simpl in Hname.
  unfold Main.from_dict, Main.to_dict, Main.init.
  cbn [Main.name Main.position Main.inventory Main.health
       Main.visited_rooms Main.turns].
  simplify_map_eq.
  unfold Main.set_turns, Main.set_visited_rooms, Main.set_health,
    Main.set_inventory, Main.set_position. simpl.
  by rewrite list_to_set_elements_L.
Qed.

(** [set(data['visited_rooms'])] depends on the members only: in whatever
    order [list(self.visited_rooms)] enumerated the set, the same player is
    loaded. *)
Lemma Main_from_dict_any_order (p : Main.Player) (l : list string) :
  Main.name p ≠ "" →
  (∀ r, r ∈ l ↔ r ∈ Main.visited_rooms p) →
  Main.from_dict (<[ "visited_rooms" := Main.VList l ]> (Main.to_dict p)) = Some p.
Proof.
  intros Hname Hl. destruct p as [n pos inv h vis t]. simpl in *.
  unfold Main.from_dict, Main.to_dict, Main.init.
  cbn [Main.name Main.position Main.inventory Main.health
       Main.visited_rooms Main.turns].
  simplify_map_eq.
  unfold Main.set_turns, Main.set_visited_rooms, Main.set_health,
    Main.set_inventory, Main.set_position. simpl.
  do 2 f_equal. apply set_eq. intros r. rewrite elem_of_list_to_set. apply Hl.
Qed.

(** Where the model stops: on a dict written with an empty name Python's
    [from_dict] returns an object without the [name] attribute
    ([Player(...)] of a falsy name sets nothing, and [from_dict] never sets
    [name] itself); it is no [Player] of the record, and the model's
    [from_dict] has no value for it. *)
Lemma Main_from_dict_empty_name (p : Main.Player) :
  Main.name p = "" → Main.from_dict (Main.to_dict p) = None.
Proof.
  intros Hname. unfold Main.from_dict, Main.to_dict.
  rewrite lookup_insert_eq. simpl. rewrite Hname. reflexivity.
Qed.

(** C9.  A player with a non-empty name survives [to_dict] followed by
    [from_dict]: the player loaded has the same name, position, inventory
    (as a sequence), health, visited rooms (the same members) and turns, and
    is in fact the same record. *)
Theorem to_dict_from_dict_roundtrip (p : Main.Player) :
  Main.name p ≠ "" →
  ∃ q, Main.from_dict (Main.to_dict p) = Some q
     ∧ Main.name q = Main.name p
     ∧ Main.position q = Main.position p
     ∧ Main.inventory q = Main.inventory p
     ∧ Main.health q = Main.health p
     ∧ (∀ r, r ∈ Main.visited_rooms q ↔ r ∈ Main.visited_rooms p)
     ∧ Main.turns q = Main.turns p
     ∧ q = p.
Proof.
  intros Hname. exists p. rewrite Main_from_dict_to_dict by done.
  split_and!; done.
Qed.

(** The player the spec's test asks for: a non-empty inventory, part of the
    castle visited, 17 turns. *)
Lemma to_dict_from_dict_roundtrip_witness :
  let p := Main.mkPlayer "Ann" "Library" ["Torch"; "Rusty Key"] 85
             ({[ "Entrance Hall" ]} ∪ {[ "Library" ]}) 17 in
  Main.name p ≠ "" ∧
  ∃ q, Main.from_dict (Main.to_dict p) = Some q
     ∧ Main.name q = Main.name p
     ∧ Main.position q = Main.position p
     ∧ Main.inventory q = Main.inventory p
     ∧ Main.health q = Main.health p
     ∧ (∀ r, r ∈ Main.visited_rooms q ↔ r ∈ Main.visited_rooms p)
     ∧ Main.turns q = Main.turns p
     ∧ q = p.
Proof.
  split.
  - simpl. discriminate.
  - apply (to_dict_from_dict_roundtrip
             (Main.mkPlayer "Ann" "Library" ["Torch"; "Rusty Key"] 85
                ({[ "Entrance Hall" ]} ∪ {[ "Library" ]}) 17)).
    simpl. discriminate.
Defined.

(** * Using the Healing Herb *)


(** The herb branch of [use_item] in [main.py], taken only if the "Use
    Item" button returned [True]. *)
Lemma Main_use_healing_herb (p : Main.Player) :
  "Healing Herb" ∈ Main.inventory p →
  Main.use_item p "Healing Herb" true
  = (AteHerb,
     Main.mkPlayer (Main.name p) (Main.position p)
       (list_remove "Healing Herb" (Main.inventory p))
       (Z.min 100 (Main.health p + 30)) (Main.visited_rooms p) (Main.turns p)).
Proof.
  intros Hin. unfold Main.use_item, Main.has_item.
  destruct (Main.inventory p) as [|i inv] eqn:Hinv.
  { by apply elem_of_nil in Hin. }
  apply list_in_true in Hin as Hb. rewrite Hb. simpl.
  unfold Main.remove_item, Main.set_health. simpl. rewrite Hinv, Hb.
  reflexivity.
Qed.




(** * Moving into the locked Armory *)

Lemma exits_of_elem (room : Room) (d : Direction) :
  d ∈ exits_of room ↔ is_Some (exit_to room d).
Proof.
  unfold exits_of. rewrite list_elem_of_filter. split; [tauto|].
  intros H. split; [done|]. destruct d; set_solver.
Qed.

Lemma exits_of_nonempty (room : Room) (d : Direction) (t : string) :
  exit_to room d = Some t → exits_of room ≠ [].
Proof.
  intros H Hnil. assert (Hd : d ∈ exits_of room) by (apply exits_of_elem; eauto).
  rewrite Hnil in Hd. by apply elem_of_nil in Hd.
Qed.

Lemma direction_of_string_key (d : Direction) :
  direction_of_string (direction_key d) = Some d.
Proof. by destruct d. Qed.

(** [move_player] of the console game once the typed direction names an
    exit of the current room. *)
Lemma App_move_player_exit (p : App.Player) (rooms : World) (direction : string)
    (d : Direction) (room : Room) (new_position : string) :
  rooms !! App.position p = Some room →
  direction_of_string direction = Some d →
  exit_to room d = Some new_position →
  App.move_player p rooms direction =
    if decide (new_position = "Armory") then
      armory ← rooms !! "Armory";
      if get_locked armory then
        if App.has_item p "Rusty Key" then
          Some (Moved true new_position,
                App.enter (snd (App.remove_item p "Rusty Key")) new_position,
                <[ "Armory" := set_locked armory false ]> rooms)
        else Some (DoorLocked, p, rooms)
      else Some (Moved false new_position, App.enter p new_position, rooms)
    else Some (Moved false new_position, App.enter p new_position, rooms).
Proof.
  intros Hroom Hdir Hexit. unfold App.move_player. rewrite Hroom. simpl.
  pose proof (exits_of_nonempty _ _ _ Hexit) as Hne.
  destruct (exits_of room) as [|e es]; [done|].
  rewrite Hdir. simpl. rewrite Hexit. reflexivity.
Qed.

(** C3.  In both programs, a move whose exit leads to the Armory while the
    Armory's [locked] flag is set succeeds exactly when the player holds the
    Rusty Key.  With the key, one Rusty Key leaves the inventory, the flag
    is cleared (nothing else of the world changes) and the player stands in
    the Armory; without it the move is refused as locked and player and
    world are what they were. *)
Theorem move_into_locked_armory :
  (∀ (p : App.Player) (rooms : World) (direction : string) (d : Direction)
     (room armory : Room),
     rooms !! App.position p = Some room →
     direction_of_string direction = Some d →
     exit_to room d = Some "Armory" →
     rooms !! "Armory" = Some armory →
     get_locked armory = true →
     ∃ o p' rooms',
       App.move_player p rooms direction = Some (o, p', rooms')
       ∧ (is_moved o = true ↔ "Rusty Key" ∈ App.inventory p)
       ∧ ("Rusty Key" ∈ App.inventory p →
            o = Moved true "Armory"
          ∧ App.inventory p' = list_remove "Rusty Key" (App.inventory p)
          ∧ S (length (App.inventory p')) = length (App.inventory p)
          ∧ rooms' = <[ "Armory" := set_locked armory false ]> rooms
          ∧ get_locked <$> rooms' !! "Armory" = Some false
          ∧ App.position p' = "Armory")
       ∧ ("Rusty Key" ∉ App.inventory p →
            o = DoorLocked ∧ p' = p ∧ rooms' = rooms))
  ∧ (∀ (p : Main.Player) (rooms : World) (d : Direction) (room armory : Room),
     rooms !! Main.position p = Some room →
     exit_to room d = Some "Armory" →
     rooms !! "Armory" = Some armory →
     get_locked armory = true →
     ∃ o p' rooms',
       Main.move_player p rooms d = Some (o, p', rooms')
       ∧ (is_moved o = true ↔ "Rusty Key" ∈ Main.inventory p)
       ∧ ("Rusty Key" ∈ Main.inventory p →
            o = Moved true "Armory"
          ∧ Main.inventory p' = list_remove "Rusty Key" (Main.inventory p)
          ∧ S (length (Main.inventory p')) = length (Main.inventory p)
          ∧ rooms' = <[ "Armory" := set_locked armory false ]> rooms
          ∧ get_locked <$> rooms' !! "Armory" = Some false
          ∧ Main.position p' = "Armory")
       ∧ ("Rusty Key" ∉ Main.inventory p →
            o = DoorLocked ∧ p' = p ∧ rooms' = rooms)).
Proof.
  split.
  - intros p rooms direction d room armory Hroom Hdir Hexit Harm Hlock.
    rewrite (App_move_player_exit _ _ _ _ _ _ Hroom Hdir Hexit).
    rewrite decide_True by done. rewrite Harm. simpl. rewrite Hlock.
    unfold App.has_item, App.remove_item.
    destruct (list_in "Rusty Key" (App.inventory p)) eqn:Hkey.
    + apply list_in_true in Hkey. do 3 eexists. split; [reflexivity|].
      split_and!; [done | | done]. intros _. simpl.
      split_and!; try done.
      * by apply list_remove_length.
      * by rewrite lookup_insert_eq.
    + apply list_in_false in Hkey. do 3 eexists. split; [reflexivity|].
      split_and!; [simpl; split; [done | tauto] | tauto | done].
  - intros p rooms d room armory Hroom Hexit Harm Hlock.
    unfold Main.move_player. rewrite Hroom. simpl. rewrite Hexit.
    rewrite decide_True by done. rewrite Harm. simpl. rewrite Hlock.
    unfold Main.has_item, Main.remove_item.
    destruct (list_in "Rusty Key" (Main.inventory p)) eqn:Hkey.
    + apply list_in_true in Hkey. do 3 eexists. split; [reflexivity|].
      split_and!; [done | | done]. intros _. simpl.
      split_and!; try done.
      * by apply list_remove_length.
      * by rewrite lookup_insert_eq.
    + apply list_in_false in Hkey. do 3 eexists. split; [reflexivity|].
      split_and!; [simpl; split; [done | tauto] | tauto | done].
Qed.

(** The spec's walk: the key was taken in the Library, and west of the
    Courtyard the Armory opens (Streamlit game); without the key the door
    stays shut (console game). *)
Lemma move_into_locked_armory_witness :
  let pm := Main.mkPlayer "Ann" "Courtyard" ["Torch"; "Rusty Key"] 100
              ({[ "Courtyard" ]} ∪ ({[ "Library" ]} ∪ {[ "Entrance Hall" ]})) 3 in
  let pa := App.mkPlayer "Ann" "Courtyard" ["Torch"] 100
              ({[ "Courtyard" ]} ∪ {[ "Entrance Hall" ]}) in
  (Main.move_player pm Main.initialize_game DWest
   = Some (Moved true "Armory",
           Main.mkPlayer "Ann" "Armory" ["Torch"] 100
             ({[ "Armory" ]} ∪ Main.visited_rooms pm) 4,
           <[ "Armory" := Main.room "⚔️ A room filled with weapons and armor. The door is locked with an old iron lock."
                None None (Some "Courtyard") None ["Sword"] (Some false) None "⚔️" ]>
             Main.initialize_game)
   ∧ ∃ o p' rooms',
       Main.move_player pm Main.initialize_game DWest = Some (o, p', rooms')
       ∧ (is_moved o = true ↔ "Rusty Key" ∈ Main.inventory pm)
       ∧ ("Rusty Key" ∈ Main.inventory pm →
            o = Moved true "Armory"
          ∧ Main.inventory p' = list_remove "Rusty Key" (Main.inventory pm)
          ∧ S (length (Main.inventory p')) = length (Main.inventory pm)
          ∧ rooms' = <[ "Armory" := set_locked
                          (Main.room "⚔️ A room filled with weapons and armor. The door is locked with an old iron lock."
                             None None (Some "Courtyard") None ["Sword"] (Some true) None "⚔️")
                          false ]> Main.initialize_game
          ∧ get_locked <$> rooms' !! "Armory" = Some false
          ∧ Main.position p' = "Armory")
       ∧ ("Rusty Key" ∉ Main.inventory pm →
            o = DoorLocked ∧ p' = pm ∧ rooms' = Main.initialize_game))
  ∧ (App.move_player pa App.castle "west" = Some (DoorLocked, pa, App.castle)
     ∧ ∃ o p' rooms',
       App.move_player pa App.castle "west" = Some (o, p', rooms')
       ∧ (is_moved o = true ↔ "Rusty Key" ∈ App.inventory pa)
       ∧ ("Rusty Key" ∈ App.inventory pa →
            o = Moved true "Armory"
          ∧ App.inventory p' = list_remove "Rusty Key" (App.inventory pa)
          ∧ S (length (App.inventory p')) = length (App.inventory pa)
          ∧ rooms' = <[ "Armory" := set_locked
                          (App.room "A room filled with weapons and armor. The door is locked."
                             None None (Some "Courtyard") None ["Sword"] (Some true) None)
                          false ]> App.castle
          ∧ get_locked <$> rooms' !! "Armory" = Some false
          ∧ App.position p' = "Armory")
       ∧ ("Rusty Key" ∉ App.inventory pa →
            o = DoorLocked ∧ p' = pa ∧ rooms' = App.castle)).
Proof.
  intros pm pa. split; (split; [reflexivity|]).
  - apply (proj2 move_into_locked_armory pm Main.initialize_game DWest
             (Main.room "🌿 An overgrown courtyard with a cracked fountain in the center. Vines cover the stone walls."
                (Some "Guard Tower") (Some "Entrance Hall") (Some "Kitchen")
                (Some "Armory") [] None None "🌿"));
      reflexivity.
  - apply (proj1 move_into_locked_armory pa App.castle "west" DWest
             (App.room "An overgrown courtyard with a fountain in the center."
                (Some "Guard Tower") (Some "Entrance Hall") (Some "Kitchen")
                (Some "Armory") [] None None));
      reflexivity.
Defined.

(** * The dark Dungeon *)

Lemma App_pick_up_item_unfold (p : App.Player) (rooms : World) (room : Room)
    (item : string) :
  rooms !! App.position p = Some room →
  App.pick_up_item p rooms item =
    Some (if bool_decide (items room = []) then (NothingToPickUp, p, rooms)
          else if bool_decide (App.position p = "Armory") && get_locked room
               then (ArmoryLocked, p, rooms)
          else if App.too_dark p room then (TooDark, p, rooms)
          else App_take_in_the_light p rooms room item).
Proof.
  intros Hroom. unfold App.pick_up_item, App_take_in_the_light, App.add_item.
  rewrite Hroom. simpl.
  destruct (items room) as [|i its]; [done|].
  rewrite (bool_decide_eq_false_2 (i :: its = [])) by done.
  destruct (_ && get_locked room); [done|].
  destruct (App.too_dark p room); [done|].
  destruct (list_in item (i :: its)); [|done].
  by destruct (decide (length (App.inventory p) < 4)%nat).
Qed.

Lemma Main_pick_up_item_unfold (p : Main.Player) (rooms : World) (room : Room)
    (item : string) :
  rooms !! Main.position p = Some room →
  Main.pick_up_item p rooms item =
    Some (if bool_decide (items room = []) then (NothingToPickUp, p, rooms)
          else if bool_decide (Main.position p = "Armory") && get_locked room
               then (ArmoryLocked, p, rooms)
          else if Main.too_dark p room then (TooDark, p, rooms)
          else Main_take_in_the_light p rooms room item).
Proof.
  intros Hroom. unfold Main.pick_up_item, Main_take_in_the_light, Main.add_item.
  rewrite Hroom. simpl.
  destruct (items room) as [|i its]; [done|].
  rewrite (bool_decide_eq_false_2 (i :: its = [])) by done.
  destruct (_ && get_locked room); [done|].
  destruct (Main.too_dark p room); [done|].
  destruct (list_in item (i :: its)); [|done].
  by destruct (decide (length (Main.inventory p) < 4)%nat).
Qed.

(** In the castle as built the claim fails for Take: north, east and south
    of the Entrance Hall the player stands in the dark Dungeon without the
    Torch, and taking answers "There's nothing to pick up here", because the
    empty-room guard comes before the darkness guard. *)
Lemma take_in_dark_dungeon_counterexample :
  (s ← App_waiting (App.main "Ann" [App.CMove "north"; App.CMove "east";
                                    App.CMove "south"]);
   Some (App.position (App.player s),
         get_dark <$> App.rooms s !! "Dungeon",
         App.has_item (App.player s) "Torch",
         outcome_of (App.pick_up_item (App.player s) (App.rooms s) "Torch")))
  = Some ("Dungeon", Some true, false, Some NothingToPickUp)
  ∧ NothingToPickUp ≠ TooDark.
Proof. split; [vm_compute; reflexivity | discriminate]. Qed.

(** C7, amended.  In the Dungeon while it is dark and the player holds no
    Torch: Look answers too-dark and changes nothing; Take changes nothing
    either, and answers too-dark when the Dungeon holds an item and
    nothing-to-pick-up when it holds none.  With the Torch, Look lists the
    items (or finds nothing of interest) and Take goes on to the item
    named, as in a lit room. *)
Theorem dark_dungeon_gating :
  (∀ (p : App.Player) (rooms : World) (room : Room) (item : string),
     App.position p = "Dungeon" →
     rooms !! "Dungeon" = Some room →
     get_dark room = true →
     ("Torch" ∉ App.inventory p →
        App.look_around p rooms = Some (TooDark, p, rooms)
      ∧ App.pick_up_item p rooms item
        = Some (if bool_decide (items room = []) then NothingToPickUp else TooDark,
                p, rooms))
     ∧ ("Torch" ∈ App.inventory p →
        App.look_around p rooms
        = Some (if bool_decide (items room = []) then NothingOfInterest
                else Looked (omap App.flavor (items room)), p, rooms)
      ∧ App.pick_up_item p rooms item
        = Some (if bool_decide (items room = []) then (NothingToPickUp, p, rooms)
                else App_take_in_the_light p rooms room item)))
  ∧ (∀ (p : Main.Player) (rooms : World) (room : Room) (item : string),
     Main.position p = "Dungeon" →
     rooms !! "Dungeon" = Some room →
     get_dark room = true →
     ("Torch" ∉ Main.inventory p →
        Main.look_around p rooms = Some (TooDark, p, rooms)
      ∧ Main.pick_up_item p rooms item
        = Some (if bool_decide (items room = []) then NothingToPickUp else TooDark,
                p, rooms))
     ∧ ("Torch" ∈ Main.inventory p →
        Main.look_around p rooms
        = Some (if bool_decide (items room = []) then NothingOfInterest
                else Looked (omap Main.flavor (items room)), p, rooms)
      ∧ Main.pick_up_item p rooms item
        = Some (if bool_decide (items room = []) then (NothingToPickUp, p, rooms)
                else Main_take_in_the_light p rooms room item))).
Proof.
  split.
  - intros p rooms room item Hpos Hroom Hdark.
    rewrite <- Hpos in Hroom.
    rewrite (App_pick_up_item_unfold _ _ _ _ Hroom).
    unfold App.look_around. rewrite Hroom. simpl.
    unfold App.too_dark, App.has_item. rewrite Hpos, Hdark. simpl.
    split; intros Htorch.
    + apply list_in_false in Htorch. rewrite Htorch. simpl.
      split; [done|]. by destruct (bool_decide (items room = [])).
    + apply list_in_true in Htorch. rewrite Htorch. simpl.
      split; [|done]. destruct (items room) as [|i its]; [done|].
      by rewrite (bool_decide_eq_false_2 (i :: its = [])).
  - intros p rooms room item Hpos Hroom Hdark.
    rewrite <- Hpos in Hroom.
    rewrite (Main_pick_up_item_unfold _ _ _ _ Hroom).
    unfold Main.look_around. rewrite Hroom. simpl.
    unfold Main.too_dark, Main.has_item. rewrite Hpos, Hdark. simpl.
    split; intros Htorch.
    + apply list_in_false in Htorch. rewrite Htorch. simpl.
      split; [done|]. by destruct (bool_decide (items room = [])).
    + apply list_in_true in Htorch. rewrite Htorch. simpl.
      split; [|done]. destruct (items room) as [|i its]; [done|].
      by rewrite (bool_decide_eq_false_2 (i :: its = [])).
Qed.

(** The Dungeon of the castle as built, entered without the Torch (console
    game) and with it (Streamlit game). *)
Lemma dark_dungeon_gating_witness :
  let pa := App.mkPlayer "Ann" "Dungeon" [] 100 {[ "Dungeon" ]} in
  let pm := Main.mkPlayer "Ann" "Dungeon" ["Torch"] 100 {[ "Dungeon" ]} 3 in
  let da := App.room "A dark, damp dungeon. It's hard to see without light."
              (Some "Kitchen") None (Some "Secret Passage") None [] None (Some true) in
  let dm := Main.room "🔒 A dark, damp dungeon. It's hard to see without light. Chains hang from the walls."
              (Some "Kitchen") None (Some "Secret Passage") None [] None (Some true) "🔒" in
  (App.look_around pa App.castle = Some (TooDark, pa, App.castle)
   ∧ App.pick_up_item pa App.castle "Torch" = Some (NothingToPickUp, pa, App.castle)
   ∧ ("Torch" ∉ App.inventory pa →
        App.look_around pa App.castle = Some (TooDark, pa, App.castle)
      ∧ App.pick_up_item pa App.castle "Torch"
        = Some (if bool_decide (items da = []) then NothingToPickUp else TooDark,
                pa, App.castle))
   ∧ ("Torch" ∈ App.inventory pa →
        App.look_around pa App.castle
        = Some (if bool_decide (items da = []) then NothingOfInterest
                else Looked (omap App.flavor (items da)), pa, App.castle)
      ∧ App.pick_up_item pa App.castle "Torch"
        = Some (if bool_decide (items da = []) then (NothingToPickUp, pa, App.castle)
                else App_take_in_the_light pa App.castle da "Torch")))
  ∧ (Main.look_around pm Main.initialize_game
     = Some (NothingOfInterest, pm, Main.initialize_game)
   ∧ ("Torch" ∉ Main.inventory pm →
        Main.look_around pm Main.initialize_game
        = Some (TooDark, pm, Main.initialize_game)
      ∧ Main.pick_up_item pm Main.initialize_game "Torch"
        = Some (if bool_decide (items dm = []) then NothingToPickUp else TooDark,
                pm, Main.initialize_game))
   ∧ ("Torch" ∈ Main.inventory pm →
        Main.look_around pm Main.initialize_game
        = Some (if bool_decide (items dm = []) then NothingOfInterest
                else Looked (omap Main.flavor (items dm)), pm, Main.initialize_game)
      ∧ Main.pick_up_item pm Main.initialize_game "Torch"
        = Some (if bool_decide (items dm = [])
                then (NothingToPickUp, pm, Main.initialize_game)
                else Main_take_in_the_light pm Main.initialize_game dm "Torch"))).
Proof.
  intros pa pm da dm. split.
  - split; [reflexivity|]. split; [reflexivity|].
    apply (proj1 dark_dungeon_gating pa App.castle da "Torch"); reflexivity.
  - split; [reflexivity|].
    apply (proj2 dark_dungeon_gating pm Main.initialize_game dm "Torch"); reflexivity.
Defined.

(** * The invariants are kept by every effect *)

Section Effects.
Context {pos pos' : string} {inv inv' : list string} {w w' : World} {o : Outcome}.
Hypothesis Heff : effect pos inv w o pos' inv' w'.

Lemma effect_bag_ok : bag_ok inv → bag_ok inv'.
Proof using Heff.
  unfold bag_ok. destruct Heff; intros Hbag; try lia.
  - rewrite length_app. simpl. lia.
  - pose proof (list_remove_length_le "Rusty Key" inv). lia.
Qed.

Lemma effect_armory_open : armory_open pos w → armory_open pos' w'.
Proof using Heff.
  unfold armory_open.
  destruct Heff as [ | | room item Hroom _ _ | room d t _ _ Harm
                   | room d armory _ _ _ _ _ ]; intros Hinv; try done.
  - intros Hpos a Ha. subst pos. rewrite lookup_insert_eq in Ha.
    injection Ha as <-. exact (Hinv eq_refl room Hroom).
  - intros Ht a Ha. destruct (Harm Ht) as (a' & Ha' & Hopen). congruence.
  - intros _ a Ha. rewrite lookup_insert_eq in Ha. by injection Ha as <-.
Qed.

(** Under the Armory invariant the "armory door is locked" answer of
    [pick_up_item] is never given. *)
Lemma effect_never_armory_locked : armory_open pos w → o ≠ ArmoryLocked.
Proof using Heff.
  unfold armory_open.
  destruct Heff as [ | room Hpos Hroom Hlock | | | ]; intros Hinv; try done.
  subst pos. rewrite (Hinv eq_refl room Hroom) in Hlock. done.
Qed.

Lemma effect_dungeon_empty : dungeon_empty w → dungeon_empty w'.
Proof using Heff.
  unfold dungeon_empty.
  destruct Heff as [ | | room item Hroom Hitems _ | | room d armory _ _ _ _ _ ];
    intros Hinv; try done.
  - intros r Hr. destruct (decide (pos = "Dungeon")) as [->|Hne].
    + by rewrite (Hinv room Hroom) in Hitems.
    + rewrite lookup_insert_ne in Hr by done. by apply Hinv.
  - intros r Hr. rewrite lookup_insert_ne in Hr by done. by apply Hinv.
Qed.

Lemma effect_closed : closed pos w → closed pos' w'.
Proof using Heff.
  unfold closed.
  destruct Heff as [ | | room item Hroom _ _ | room d t Hroom Hexit _
                   | room d armory Hroom Hexit Harm _ _ ];
    intros (Hpos & Harmory & Hexits); try done.
  - split_and!.
    + rewrite lookup_insert_eq. eauto.
    + rewrite lookup_insert_is_Some. destruct (decide (pos = "Armory")); eauto.
    + intros n r d t Hn Hd. rewrite lookup_insert_is_Some.
      destruct (decide (pos = t)) as [|Hne]; [eauto|]. right. split; [done|].
      destruct (decide (pos = n)) as [<-|Hn'].
      * rewrite lookup_insert_eq in Hn. injection Hn as <-.
        apply (Hexits pos room d t Hroom). by destruct d.
      * rewrite lookup_insert_ne in Hn by done. eauto.
  - split_and!; eauto.
  - split_and!.
    + rewrite lookup_insert_eq. eauto.
    + rewrite lookup_insert_eq. eauto.
    + intros n r d' t Hn Hd. rewrite lookup_insert_is_Some.
      destruct (decide ("Armory" = t)) as [|Hne]; [eauto|]. right. split; [done|].
      destruct (decide ("Armory" = n)) as [<-|Hn'].
      * rewrite lookup_insert_eq in Hn. injection Hn as <-.
        apply (Hexits "Armory" armory d' t Harm). by destruct d'.
      * rewrite lookup_insert_ne in Hn by done. eauto.
Qed.

Lemma effect_sound : sound pos inv w → sound pos' inv' w'.
Proof using Heff.
  intros (Hbag & Harm & Hdun & Hcl).
  split_and!; [by apply effect_bag_ok | by apply effect_armory_open
              | by apply effect_dungeon_empty | by apply effect_closed].
Qed.

End Effects.

(** * Every handler has one of the effects *)

Lemma App_remove_item_inventory (p : App.Player) (item : string) :
  App.position (snd (App.remove_item p item)) = App.position p
  ∧ App.health (snd (App.remove_item p item)) = App.health p
  ∧ (length (App.inventory (snd (App.remove_item p item)))
     ≤ length (App.inventory p))%nat
  ∧ (item ∈ App.inventory p →
     App.inventory (snd (App.remove_item p item))
     = list_remove item (App.inventory p)).
Proof.
  unfold App.remove_item.
  destruct (list_in item (App.inventory p)) eqn:Hb; simpl.
  - split_and!; [done | done | apply list_remove_length_le | done].
  - apply list_in_false in Hb. split_and!; [done | done | lia | done].
Qed.

Lemma Main_remove_item_inventory (p : Main.Player) (item : string) :
  Main.position (snd (Main.remove_item p item)) = Main.position p
  ∧ Main.health (snd (Main.remove_item p item)) = Main.health p
  ∧ Main.turns (snd (Main.remove_item p item)) = Main.turns p
  ∧ (length (Main.inventory (snd (Main.remove_item p item)))
     ≤ length (Main.inventory p))%nat
  ∧ (item ∈ Main.inventory p →
     Main.inventory (snd (Main.remove_item p item))
     = list_remove item (Main.inventory p)).
Proof.
  unfold Main.remove_item.
  destruct (list_in item (Main.inventory p)) eqn:Hb; simpl.
  - split_and!; [done | done | done | apply list_remove_length_le | done].
  - apply list_in_false in Hb. split_and!; [done | done | done | lia | done].
Qed.

Lemma App_move_player_effect (p : App.Player) (w : World) (direction : string)
    (o : Outcome) (p' : App.Player) (w' : World) :
  App.move_player p w direction = Some (o, p', w') →
  effect (App.position p) (App.inventory p) w o
         (App.position p') (App.inventory p') w'
  ∧ App.health p' = App.health p.
Proof.
  unfold App.move_player. intros H.
  destruct (w !! App.position p) as [room|] eqn:Hroom; [|done]. simpl in H.
  destruct (exits_of room) as [|e es].
  { injection H as <- <- <-. split; [keep_effect | done]. }
  destruct (direction_of_string direction) as [d|]; simpl in H;
    [|injection H as <- <- <-; split; [keep_effect | done]].
  destruct (exit_to room d) as [t|] eqn:Hexit;
    [|injection H as <- <- <-; split; [keep_effect | done]].
  destruct (decide (t = "Armory")) as [->|Hne].
  - destruct (w !! "Armory") as [armory|] eqn:Harm; [|done]. simpl in H.
    destruct (get_locked armory) eqn:Hlock.
    + unfold App.has_item in H.
      destruct (list_in "Rusty Key" (App.inventory p)) eqn:Hkey.
      * injection H as <- <- <-. apply list_in_true in Hkey.
        destruct (App_remove_item_inventory p "Rusty Key") as (_ & Hh & _ & Hinv).
        simpl. rewrite (Hinv Hkey). split; [by eapply eff_unlock | done].
      * injection H as <- <- <-. split; [keep_effect | done].
    + injection H as <- <- <-. split; [|done]. simpl.
      eapply eff_move; eauto.
  - injection H as <- <- <-. split; [|done]. simpl.
    eapply eff_move; eauto. done.
Qed.

Lemma Main_move_player_effect (p : Main.Player) (w : World) (d : Direction)
    (o : Outcome) (p' : Main.Player) (w' : World) :
  Main.move_player p w d = Some (o, p', w') →
  effect (Main.position p) (Main.inventory p) w o
         (Main.position p') (Main.inventory p') w'
  ∧ Main.health p' = Main.health p
  ∧ Main.turns p' = Main.turns p + (if is_moved o then 1 else 0).
Proof.
  unfold Main.move_player. intros H.
  destruct (w !! Main.position p) as [room|] eqn:Hroom; [|done]. simpl in H.
  destruct (exit_to room d) as [t|] eqn:Hexit;
    [|injection H as <- <- <-; split_and!; [keep_effect | done | simpl; lia]].
  destruct (decide (t = "Armory")) as [->|Hne].
  - destruct (w !! "Armory") as [armory|] eqn:Harm; [|done]. simpl in H.
    destruct (get_locked armory) eqn:Hlock.
    + unfold Main.has_item in H.
      destruct (list_in "Rusty Key" (Main.inventory p)) eqn:Hkey.
      * injection H as <- <- <-. apply list_in_true in Hkey.
        destruct (Main_remove_item_inventory p "Rusty Key")
          as (_ & Hh & Ht & _ & Hinv).
        simpl. rewrite (Hinv Hkey), Ht.
        split_and!; [by eapply eff_unlock | done | done].
      * injection H as <- <- <-. split_and!; [keep_effect | done | simpl; lia].
    + injection H as <- <- <-. split_and!; [|done|done]. simpl.
      eapply eff_move; eauto.
  - injection H as <- <- <-. split_and!; [|done|done]. simpl.
    eapply eff_move; eauto. done.
Qed.

Lemma App_pick_up_item_effect (p : App.Player) (w : World) (item : string)
    (o : Outcome) (p' : App.Player) (w' : World) :
  App.pick_up_item p w item = Some (o, p', w') →
  effect (App.position p) (App.inventory p) w o
         (App.position p') (App.inventory p') w'
  ∧ App.health p' = App.health p.
Proof.
  intros H.
  destruct (w !! App.position p) as [room|] eqn:Hroom;
    [|by unfold App.pick_up_item in H; rewrite Hroom in H].
  rewrite (App_pick_up_item_unfold _ _ _ _ Hroom) in H.
  destruct (bool_decide (items room = [])) eqn:Hitems;
    [injection H as <- <- <-; split; [keep_effect | done]|].
  apply bool_decide_eq_false in Hitems.
  destruct (bool_decide (App.position p = "Armory") && get_locked room) eqn:Hlock.
  { injection H as <- <- <-. apply andb_true_iff in Hlock as [Hpos Hlock].
    apply bool_decide_eq_true in Hpos. split; [by eapply eff_armory_locked | done]. }
  destruct (App.too_dark p room);
    [injection H as <- <- <-; split; [keep_effect | done]|].
  unfold App_take_in_the_light in H.
  destruct (list_in item (items room));
    [|injection H as <- <- <-; split; [keep_effect | done]].
  destruct (decide (length (App.inventory p) < 4)%nat);
    [|injection H as <- <- <-; split; [keep_effect | done]].
  injection H as <- <- <-. split; [|done]. simpl. by eapply eff_take.
Qed.

Lemma Main_pick_up_item_effect (p : Main.Player) (w : World) (item : string)
    (o : Outcome) (p' : Main.Player) (w' : World) :
  Main.pick_up_item p w item = Some (o, p', w') →
  effect (Main.position p) (Main.inventory p) w o
         (Main.position p') (Main.inventory p') w'
  ∧ Main.health p' = Main.health p
  ∧ Main.turns p' = Main.turns p ∧ is_moved o = false.
Proof.
  intros H.
  destruct (w !! Main.position p) as [room|] eqn:Hroom;
    [|by unfold Main.pick_up_item in H; rewrite Hroom in H].
  rewrite (Main_pick_up_item_unfold _ _ _ _ Hroom) in H.
  destruct (bool_decide (items room = [])) eqn:Hitems;
    [injection H as <- <- <-; split_and!; [keep_effect | done | done | done]|].
  apply bool_decide_eq_false in Hitems.
  destruct (bool_decide (Main.position p = "Armory") && get_locked room) eqn:Hlock.
  { injection H as <- <- <-. apply andb_true_iff in Hlock as [Hpos Hlock].
    apply bool_decide_eq_true in Hpos.
    split_and!; [by eapply eff_armory_locked | done | done | done]. }
  destruct (Main.too_dark p room);
    [injection H as <- <- <-; split_and!; [keep_effect | done | done | done]|].
  unfold Main_take_in_the_light in H.
  destruct (list_in item (items room));
    [|injection H as <- <- <-; split_and!; [keep_effect | done | done | done]].
  destruct (decide (length (Main.inventory p) < 4)%nat);
    [|injection H as <- <- <-; split_and!; [keep_effect | done | done | done]].
  injection H as <- <- <-. split_and!; [|done|done|done]. simpl. by eapply eff_take.
Qed.

Lemma App_look_around_same (p : App.Player) (w : World)
    (o : Outcome) (p' : App.Player) (w' : World) :
  App.look_around p w = Some (o, p', w') →
  p' = p ∧ w' = w ∧ o ≠ ArmoryLocked ∧ is_moved o = false.
Proof.
  unfold App.look_around. intros H.
  destruct (w !! App.position p) as [room|]; [|done]. simpl in H.
  destruct (App.too_dark p room); [by injection H as <- <- <-|].
  destruct (items room); by injection H as <- <- <-.
Qed.

Lemma Main_look_around_same (p : Main.Player) (w : World)
    (o : Outcome) (p' : Main.Player) (w' : World) :
  Main.look_around p w = Some (o, p', w') →
  p' = p ∧ w' = w ∧ o ≠ ArmoryLocked ∧ is_moved o = false.
Proof.
  unfold Main.look_around. intros H.
  destruct (w !! Main.position p) as [room|]; [|done]. simpl in H.
  destruct (Main.too_dark p room); [by injection H as <- <- <-|].
  destruct (items room); by injection H as <- <- <-.
Qed.

(** [use_item] leaves the position, never grows the bag, never lowers the
    health, and changes the health only when a held Healing Herb is eaten. *)
Lemma App_use_item_facts (p : App.Player) (item : string) :
  let '(o, p') := App.use_item p item in
  App.position p' = App.position p
  ∧ (length (App.inventory p') ≤ length (App.inventory p))%nat
  ∧ o ≠ ArmoryLocked ∧ is_moved o = false
  ∧ (item ≠ "Healing Herb" → App.health p' = App.health p)
  ∧ (App.health p ≤ 100 → App.health p ≤ App.health p').
Proof.
  unfold App.use_item. destruct (App.inventory p) eqn:Hinv.
  { rewrite Hinv. split_and!; (done || lia). }
  rewrite <- Hinv. clear Hinv.
  destruct (negb (App.has_item p item)); [split_and!; (done || lia)|].
  destruct (decide (item = "Torch")); [split_and!; (done || lia)|].
  destruct (decide (item = "Healing Herb")).
  { destruct (App_remove_item_inventory
                (App.set_health p (Z.min 100 (App.health p + 30))) "Healing Herb")
      as (Hp & Hh & Hl & _).
    rewrite Hh. simpl in *. split_and!; (done || lia). }
  destruct (decide (item = "Sword")); [split_and!; (done || lia)|].
  destruct (decide (item = "Crowbar")); [|split_and!; (done || lia)].
  destruct (decide (App.position p = "Study")); split_and!; (done || lia).
Qed.

Lemma Main_use_item_facts (p : Main.Player) (item : string) (pressed : bool) :
  let '(o, p') := Main.use_item p item pressed in
  Main.position p' = Main.position p
  ∧ (length (Main.inventory p') ≤ length (Main.inventory p))%nat
  ∧ o ≠ ArmoryLocked ∧ is_moved o = false
  ∧ Main.turns p' = Main.turns p
  ∧ (item ≠ "Healing Herb" → Main.health p' = Main.health p)
  ∧ (Main.health p ≤ 100 → Main.health p ≤ Main.health p').
Proof.
  unfold Main.use_item. destruct (Main.inventory p) eqn:Hinv.
  { rewrite Hinv. split_and!; (done || lia). }
  rewrite <- Hinv. clear Hinv.
  destruct pressed; [|split_and!; (done || lia)].
  destruct (negb (Main.has_item p item)); [split_and!; (done || lia)|].
  destruct (decide (item = "Torch")); [split_and!; (done || lia)|].
  destruct (decide (item = "Healing Herb")).
  { destruct (Main_remove_item_inventory
                (Main.set_health p (Z.min 100 (Main.health p + 30))) "Healing Herb")
      as (Hp & Hh & Ht & Hl & _).
    rewrite Hh, Ht. simpl in *. split_and!; (done || lia). }
  destruct (decide (item = "Sword")); [split_and!; (done || lia)|].
  destruct (decide (item = "Crowbar")); [|split_and!; (done || lia)].
  destruct (decide (Main.position p = "Study")); split_and!; (done || lia).
Qed.

Lemma App_talk_to_character_facts (p : App.Player) :
  let '(o, p') := App.talk_to_character p in
  App.position p' = App.position p
  ∧ (length (App.inventory p') ≤ length (App.inventory p))%nat
  ∧ o ≠ ArmoryLocked ∧ is_moved o = false
  ∧ App.health p' = App.health p.
Proof.
  unfold App.talk_to_character.
  destruct (decide (App.position p = "Courtyard")); [split_and!; (done || lia)|].
  destruct (decide (App.position p = "Guard Tower")); [|split_and!; (done || lia)].
  destruct (App.has_item p "Healing Herb"); [|split_and!; (done || lia)].
  destruct (App_remove_item_inventory p "Healing Herb") as (Hp & Hh & Hl & _).
  split_and!; (done || lia).
Qed.

Lemma Main_talk_to_character_facts (p : Main.Player) :
  let '(o, p') := Main.talk_to_character p in
  Main.position p' = Main.position p
  ∧ (length (Main.inventory p') ≤ length (Main.inventory p))%nat
  ∧ o ≠ ArmoryLocked ∧ is_moved o = false
  ∧ Main.turns p' = Main.turns p
  ∧ Main.health p' = Main.health p.
Proof.
  unfold Main.talk_to_character.
  destruct (decide (Main.position p = "Courtyard")); [split_and!; (done || lia)|].
  destruct (decide (Main.position p = "Guard Tower")); [|split_and!; (done || lia)].
  destruct (Main.has_item p "Healing Herb"); [|split_and!; (done || lia)].
  destruct (Main_remove_item_inventory p "Healing Herb") as (Hp & Hh & Ht & Hl & _).
  split_and!; (done || lia).
Qed.

(** Every command of the console game has one of the effects, and only
    eating the Healing Herb touches the health. *)
Lemma App_dispatch_effect (c : App.Command) (p : App.Player) (w : World)
    (o : Outcome) (p' : App.Player) (w' : World) :
  App.dispatch c p w = Some (o, p', w') →
  effect (App.position p) (App.inventory p) w o
         (App.position p') (App.inventory p') w'
  ∧ (c ≠ App.CUse "Healing Herb" → App.health p' = App.health p)
  ∧ (App.health p ≤ 100 → App.health p ≤ App.health p').
Proof.
  destruct c as [d| |i| |i| | | | | ]; simpl; intros H;
    try (injection H as <- <- <-; split_and!; [keep_effect | done | lia]).
  - apply App_move_player_effect in H as [He Hh].
    split_and!; [done | done | lia].
  - apply App_look_around_same in H as (-> & -> & ? & ?).
    split_and!; [keep_effect | done | lia].
  - apply App_pick_up_item_effect in H as [He Hh].
    split_and!; [done | done | lia].
  - pose proof (App_use_item_facts p i) as Hf.
    destruct (App.use_item p i) as [o1 p1]. injection H as <- <- <-.
    destruct Hf as (Hpos & Hlen & Hne & Hmv & Hh & Hge).
    split_and!; [rewrite Hpos; by apply eff_keep | | done].
    intros Hc. apply Hh. congruence.
  - pose proof (App_talk_to_character_facts p) as Hf.
    destruct (App.talk_to_character p) as [o1 p1]. injection H as <- <- <-.
    destruct Hf as (Hpos & Hlen & Hne & Hmv & Hh).
    split_and!; [rewrite Hpos; by apply eff_keep | done | lia].
Qed.

(** Every button of the Streamlit game has one of the effects; a move that
    succeeds adds one to [turns] and nothing else touches it; the health is
    never lowered. *)
Lemma Main_step_effect (a : Main.Action) (p : Main.Player) (w : World)
    (o : Outcome) (p' : Main.Player) (w' : World) :
  Main.step a p w = Some (o, p', w') →
  effect (Main.position p) (Main.inventory p) w o
         (Main.position p') (Main.inventory p') w'
  ∧ Main.turns p' = Main.turns p + (if is_moved o then 1 else 0)
  ∧ (is_moved o = true → ∃ d, a = Main.AMove d)
  ∧ (Main.health p ≤ 100 → Main.health p ≤ Main.health p' ≤ 100).
Proof.
  destruct a as [d|i| | |i b| ]; simpl; intros H.
  - apply Main_move_player_effect in H as (He & Hh & Ht).
    split_and!; [done | done | eauto | lia].
  - apply Main_pick_up_item_effect in H as (He & Hh & Ht & Hmv).
    rewrite Hmv. split_and!; [done | lia | done | lia].
  - apply Main_look_around_same in H as (-> & -> & ? & Hmv).
    rewrite Hmv. split_and!; [keep_effect | lia | done | lia].
  - pose proof (Main_talk_to_character_facts p) as Hf.
    destruct (Main.talk_to_character p) as [o1 p1]. injection H as <- <- <-.
    destruct Hf as (Hpos & Hlen & Hne & Hmv & Ht & Hh).
    rewrite Hmv.
    split_and!; [rewrite Hpos; by apply eff_keep | lia | done | lia].
  - pose proof (Main_use_item_facts p i b) as Hf.
    destruct (Main.use_item p i b) as [o1 p1] eqn:Huse. injection H as <- <- <-.
    destruct Hf as (Hpos & Hlen & Hne & Hmv & Ht & Hh & Hge).
    rewrite Hmv.
    split_and!; [rewrite Hpos; by apply eff_keep | lia | done | ].
    intros Hle. split; [by apply Hge|]. revert Huse. unfold Main.use_item.
    destruct (Main.inventory p); [by intros [= <- <-]|].
    destruct b; [|by intros [= <- <-]].
    destruct (negb _); [by intros [= <- <-]|].
    destruct (decide (i = "Torch")); [by intros [= <- <-]|].
    destruct (decide (i = "Healing Herb")).
    { intros [= <- <-].
      destruct (Main_remove_item_inventory
                  (Main.set_health p (Z.min 100 (Main.health p + 30)))
                  "Healing Herb") as (_ & Hh' & _).
      rewrite Hh'. simpl. lia. }
    destruct (decide (i = "Sword")); [by intros [= <- <-]|].
    destruct (decide (i = "Crowbar")); [|by intros [= <- <-]].
    destruct (decide (Main.position p = "Study")); by intros [= <- <-].
  - injection H as <- <- <-. split_and!; [keep_effect | simpl; lia | done | lia].
Qed.

(** * No handler raises on a closed world *)

Lemma App_dispatch_total (c : App.Command) (p : App.Player) (w : World) :
  closed (App.position p) w → is_Some (App.dispatch c p w).
Proof.
  intros ([room Hroom] & [armory Harm] & Hexits).
  destruct c as [d| |i| |i| | | | | ]; simpl; try by eauto.
  - unfold App.move_player. rewrite Hroom. simpl.
    destruct (exits_of room); [eauto|].
    destruct (direction_of_string d ≫= exit_to room); [|eauto].
    destruct (decide (_ = "Armory")); [|eauto].
    rewrite Harm. simpl.
    destruct (get_locked armory); [|eauto]. destruct (App.has_item _ _); eauto.
  - unfold App.look_around. rewrite Hroom. simpl.
    destruct (App.too_dark p room); [eauto|]. destruct (items room); eauto.
  - rewrite (App_pick_up_item_unfold _ _ _ _ Hroom). eauto.
  - destruct (App.use_item p i). eauto.
  - destruct (App.talk_to_character p). eauto.
Qed.

Lemma Main_step_total (a : Main.Action) (p : Main.Player) (w : World) :
  closed (Main.position p) w → is_Some (Main.step a p w).
Proof.
  intros ([room Hroom] & [armory Harm] & Hexits).
  destruct a as [d|i| | |i b| ]; simpl; try by eauto.
  - unfold Main.move_player. rewrite Hroom. simpl.
    destruct (exit_to room d); [|eauto].
    destruct (decide (_ = "Armory")); [|eauto].
    rewrite Harm. simpl.
    destruct (get_locked armory); [|eauto]. destruct (Main.has_item _ _); eauto.
  - rewrite (Main_pick_up_item_unfold _ _ _ _ Hroom). eauto.
  - unfold Main.look_around. rewrite Hroom. simpl.
    destruct (Main.too_dark p room); [eauto|]. destruct (items room); eauto.
  - destruct (Main.talk_to_character p). eauto.
  - destruct (Main.use_item p i b). eauto.
Qed.

(** * The castle as built is sound *)

Lemma App_castle_closed : closed "Entrance Hall" App.castle.
Proof.
  split_and!; [by eexists | by eexists |].
  intros n room d t Hn Hd. unfold App.castle in Hn.
  castle_rooms Hn; destruct d; simpl in Hd; try discriminate Hd;
    injection Hd as <-; by eexists.
Qed.

Lemma Main_castle_closed : closed "Entrance Hall" Main.initialize_game.
Proof.
  split_and!; [by eexists | by eexists |].
  intros n room d t Hn Hd. unfold Main.initialize_game in Hn.
  castle_rooms Hn; destruct d; simpl in Hd; try discriminate Hd;
    injection Hd as <-; by eexists.
Qed.

Lemma App_initialize_game_sound (name : string) :
  App_sound (App.mkSession (fst (App.initialize_game name))
                           (snd (App.initialize_game name)) 0).
Proof.
  unfold App_sound, sound. simpl. split_and!.
  - unfold bag_ok. simpl. lia.
  - intros Hpos. discriminate Hpos.
  - intros room Hroom. vm_compute in Hroom. by injection Hroom as <-.
  - apply App_castle_closed.
Qed.

Lemma Main_init_sound (name : string) (p : Main.Player) :
  Main.init name = Some p →
  Main_sound p Main.initialize_game ∧ Main.turns p = 0 ∧ Main.health p = 100.
Proof.
  unfold Main.init. destruct (decide (name = "")); [done|].
  intros [= <-]. unfold Main_sound, sound. simpl.
  split_and!; [ | | | apply Main_castle_closed | reflexivity | reflexivity ].
  - unfold bag_ok. simpl. lia.
  - intros Hpos. discriminate Hpos.
  - intros room Hroom. vm_compute in Hroom. by injection Hroom as <-.
Qed.

(** * Whole plays *)

(** One iteration of [game_loop] on a sound session: it does not raise,
    leaves a sound session, never answers "armory door is locked", and
    counts one turn. *)
Lemma App_iteration_sound (c : App.Command) (s : App.Session) :
  App_sound s →
  ∃ o s' e, App.iteration c s = Some (o, s', e)
          ∧ App_sound s' ∧ o ≠ ArmoryLocked ∧ App.turns s' = App.turns s + 1.
Proof.
  intros Hs. pose proof Hs as (Hbag & Harm & Hdun & Hcl).
  destruct (App_dispatch_total c _ _ Hcl) as [[[o p1] w1] Hd].
  destruct (App_dispatch_effect _ _ _ _ _ _ Hd) as (Heff & _ & _).
  pose proof (effect_sound Heff Hs) as Hs1.
  pose proof (effect_never_armory_locked Heff Harm) as Ho.
  unfold App.iteration. destruct Hcl as ([room Hroom] & _ & _).
  rewrite Hroom. simpl. rewrite Hd. simpl.
  assert (Hdone : ∀ (p2 : App.Player) (e : option App.Ending),
            App.position p2 = App.position p1 →
            App.inventory p2 = App.inventory p1 →
            ∃ o' s' e',
              Some (o, App.mkSession p2 w1 (App.turns s + 1), e) = Some (o', s', e')
              ∧ App_sound s' ∧ o' ≠ ArmoryLocked
              ∧ App.turns s' = App.turns s + 1).
  { intros p2 e Hp Hi. do 3 eexists. split; [reflexivity|].
    unfold App_sound. simpl. rewrite Hp, Hi. done. }
  destruct c; try (by apply Hdone);
    (destruct (fst (App.check_win_condition p1)); [by apply Hdone|];
     repeat case_decide; by apply Hdone).
Qed.

Lemma App_loop_sound (cmds : list App.Command) (s : App.Session) :
  App_sound s →
  Forall (λ o, o ≠ ArmoryLocked) (fst (App.loop cmds s))
  ∧ match snd (App.loop cmds s) with
    | App.Waiting s' | App.Returned _ s' =>
        App_sound s'
        ∧ App.turns s' = App.turns s + Z.of_nat (length (fst (App.loop cmds s)))
    | App.Raised => False
    end.
Proof.
  revert s. induction cmds as [|c cmds IH]; intros s Hs; simpl.
  { split; [constructor|]. split; [done | lia]. }
  destruct (App_iteration_sound c s Hs) as (o & s' & e & Hit & Hs' & Ho & Ht).
  rewrite Hit. destruct e as [e|]; simpl.
  - split; [by repeat constructor|]. split; [done | lia].
  - specialize (IH s' Hs'). destruct (App.loop cmds s') as [os r]. simpl in *.
    destruct IH as [Hos Hr]. split; [by constructor|].
    destruct r as [s''|e s''|]; [| |done]; destruct Hr as [? Hr]; split; try done; lia.
Qed.

Lemma moves_made_cons (o : Outcome) (os : list Outcome) :
  moves_made (o :: os) = (if is_moved o then 1 else 0) + moves_made os.
Proof.
  unfold moves_made. rewrite filter_cons.
  destruct (decide (is_moved o = true)) as [Hm|Hm].
  - rewrite Hm. simpl. lia.
  - destruct (is_moved o); [done | lia].
Qed.

Lemma Main_run_sound (acts : list Main.Action) (p : Main.Player) (w : World) :
  Main_sound p w →
  ∃ os p' w', Main.run acts p w = Some (os, p', w')
            ∧ Main_sound p' w'
            ∧ Forall (λ o, o ≠ ArmoryLocked) os
            ∧ Main.turns p' = Main.turns p + moves_made os
            ∧ (Main.health p = 100 → Main.health p' = 100).
Proof.
  revert p w. induction acts as [|a acts IH]; intros p w Hs; simpl.
  { exists [], p, w. split_and!; try done. unfold moves_made. simpl. lia. }
  pose proof Hs as (Hbag & Harm & Hdun & Hcl).
  destruct (Main_step_total a _ _ Hcl) as [[[o p1] w1] Hd].
  destruct (Main_step_effect _ _ _ _ _ _ Hd) as (Heff & Ht & _ & Hh).
  pose proof (effect_sound Heff Hs) as Hs1.
  pose proof (effect_never_armory_locked Heff Harm) as Ho.
  rewrite Hd. simpl.
  destruct (IH p1 w1 Hs1) as (os & p' & w' & Hrun & Hs' & Hos & Ht' & Hh').
  rewrite Hrun. simpl. exists (o :: os), p', w'.
  split_and!; [done | done | by constructor | | lia].
  rewrite Ht', Ht, moves_made_cons. lia.
Qed.

(** * The bag *)

Lemma App_add_item_spec (p : App.Player) (item : string) :
  (fst (App.add_item p item) = false ↔ (4 ≤ length (App.inventory p))%nat)
  ∧ App.add_item p item
    = (if decide (4 ≤ length (App.inventory p))%nat then (false, p)
       else (true, App.set_inventory p (App.inventory p ++ [item]))).
Proof.
  unfold App.add_item.
  destruct (decide (length (App.inventory p) < 4)%nat);
    destruct (decide (4 ≤ length (App.inventory p))%nat); try lia; simpl.
  - split; [|done]. split; [done | lia].
  - split; [|done]. split; [done | lia].
Qed.

Lemma Main_add_item_spec (p : Main.Player) (item : string) :
  (fst (Main.add_item p item) = false ↔ (4 ≤ length (Main.inventory p))%nat)
  ∧ Main.add_item p item
    = (if decide (4 ≤ length (Main.inventory p))%nat then (false, p)
       else (true, Main.set_inventory p (Main.inventory p ++ [item]))).
Proof.
  unfold Main.add_item.
  destruct (decide (length (Main.inventory p) < 4)%nat);
    destruct (decide (4 ≤ length (Main.inventory p))%nat); try lia; simpl.
  - split; [|done]. split; [done | lia].
  - split; [|done]. split; [done | lia].
Qed.

(** C2.  Whatever commands are played from the start of either game (takes
    or any others), the play does not raise and the inventory never holds
    more than four items.  On a player whose inventory holds at most four
    items, [add_item] returns [False] exactly when it holds four, and leaves
    the player as is; otherwise it appends the item at the end and returns
    [True]. *)
Theorem inventory_capacity :
  (∀ (name : string) (cmds : list App.Command),
     match snd (App.main name cmds) with
     | App.Waiting s | App.Returned _ s =>
         (length (App.inventory (App.player s)) ≤ 4)%nat
     | App.Raised => False
     end)
  ∧ (∀ (name : string) (acts : list Main.Action), name ≠ "" →
     ∃ os p w, Main_new_game name acts = Some (os, p, w)
             ∧ (length (Main.inventory p) ≤ 4)%nat)
  ∧ (∀ (p : App.Player) (item : string),
     (length (App.inventory p) ≤ 4)%nat →
     (fst (App.add_item p item) = false ↔ length (App.inventory p) = 4%nat)
     ∧ App.add_item p item
       = (if decide (length (App.inventory p) = 4%nat) then (false, p)
          else (true, App.mkPlayer (App.name p) (App.position p)
                        (App.inventory p ++ [item])
                        (App.health p) (App.visited_rooms p))))
  ∧ (∀ (p : Main.Player) (item : string),
     (length (Main.inventory p) ≤ 4)%nat →
     (fst (Main.add_item p item) = false ↔ length (Main.inventory p) = 4%nat)
     ∧ Main.add_item p item
       = (if decide (length (Main.inventory p) = 4%nat) then (false, p)
          else (true, Main.mkPlayer (Main.name p) (Main.position p)
                        (Main.inventory p ++ [item])
                        (Main.health p) (Main.visited_rooms p) (Main.turns p)))).
Proof.
  split_and!.
  - intros name cmds. unfold App.main, App.game_loop. simpl.
    pose proof (App_loop_sound cmds _ (App_initialize_game_sound name)) as [_ H].
    simpl in H.
    destruct (snd (App.loop cmds _)) as [s|e s|]; [| |done];
      by destruct H as [(Hbag & _) _].
  - intros name acts Hname. unfold Main_new_game, Main.init.
    rewrite decide_False by done. simpl.
    destruct (Main_init_sound name _ ltac:(unfold Main.init; by rewrite decide_False))
      as (Hs & _ & _).
    destruct (Main_run_sound acts _ _ Hs) as (os & p & w & Hrun & (Hbag & _) & _).
    exists os, p, w. split; done.
  - intros p item Hle. destruct (App_add_item_spec p item) as [Hiff Heq].
    split; [rewrite Hiff; lia|]. rewrite Heq.
    destruct (decide (4 ≤ length (App.inventory p))%nat);
      destruct (decide (length (App.inventory p) = 4%nat)); try lia; done.
  - intros p item Hle. destruct (Main_add_item_spec p item) as [Hiff Heq].
    split; [rewrite Hiff; lia|]. rewrite Heq.
    destruct (decide (4 ≤ length (Main.inventory p))%nat);
      destruct (decide (length (Main.inventory p) = 4%nat)); try lia; done.
Qed.

(** A fifth take: with Torch, Rusty Key, Old Book and Healing Herb in the
    bag [add_item] refuses the Crowbar; with three items it appends it. *)
Lemma inventory_capacity_witness :
  let pa := App.mkPlayer "Ann" "Guard Tower"
              ["Torch"; "Rusty Key"; "Old Book"; "Healing Herb"] 100 ∅ in
  let pm := Main.mkPlayer "Ann" "Guard Tower"
              ["Torch"; "Rusty Key"; "Old Book"] 100 ∅ 7 in
  ((length (App.inventory pa) ≤ 4)%nat
   ∧ App.add_item pa "Crowbar" = (false, pa)
   ∧ (fst (App.add_item pa "Crowbar") = false ↔ length (App.inventory pa) = 4%nat)
   ∧ App.add_item pa "Crowbar"
     = (if decide (length (App.inventory pa) = 4%nat) then (false, pa)
        else (true, App.mkPlayer (App.name pa) (App.position pa)
                      (App.inventory pa ++ ["Crowbar"])
                      (App.health pa) (App.visited_rooms pa))))
  ∧ ((length (Main.inventory pm) ≤ 4)%nat
     ∧ Main.add_item pm "Crowbar"
       = (true, Main.mkPlayer "Ann" "Guard Tower"
                  ["Torch"; "Rusty Key"; "Old Book"; "Crowbar"] 100 ∅ 7)
     ∧ (fst (Main.add_item pm "Crowbar") = false ↔ length (Main.inventory pm) = 4%nat)
     ∧ Main.add_item pm "Crowbar"
       = (if decide (length (Main.inventory pm) = 4%nat) then (false, pm)
          else (true, Main.mkPlayer (Main.name pm) (Main.position pm)
                        (Main.inventory pm ++ ["Crowbar"])
                        (Main.health pm) (Main.visited_rooms pm) (Main.turns pm))))
  ∧ ("Ann" ≠ ""
     ∧ ∃ os p w,
         Main_new_game "Ann" [Main.ATake "Torch"; Main.AMove DEast;
                              Main.ATake "Rusty Key"; Main.ATake "Old Book"]
         = Some (os, p, w)
         ∧ (length (Main.inventory p) ≤ 4)%nat).
Proof.
  intros pa pm.
  assert (Ha : (length (App.inventory pa) ≤ 4)%nat) by (simpl; lia).
  assert (Hm : (length (Main.inventory pm) ≤ 4)%nat) by (simpl; lia).
  assert (Hn : "Ann" ≠ "") by discriminate.
  split; [|split].
  - split; [exact Ha|]. split; [reflexivity|].
    exact (proj1 (proj2 (proj2 inventory_capacity)) pa "Crowbar" Ha).
  - split; [exact Hm|]. split; [reflexivity|].
    exact (proj2 (proj2 (proj2 inventory_capacity)) pm "Crowbar" Hm).
  - split; [exact Hn|].
    exact (proj1 (proj2 inventory_capacity) "Ann" _ Hn).
Defined.

(** * Plays of the two games from their start *)

Lemma App_main_sound (name : string) (cmds : list App.Command) :
  Forall (λ o, o ≠ ArmoryLocked) (fst (App.main name cmds))
  ∧ match snd (App.main name cmds) with
    | App.Waiting s | App.Returned _ s =>
        App_sound s
        ∧ App.turns s = Z.of_nat (length (fst (App.main name cmds)))
    | App.Raised => False
    end.
Proof.
  unfold App.main, App.game_loop. simpl.
  pose proof (App_loop_sound cmds _ (App_initialize_game_sound name)) as [Hos H].
  simpl in *. split; [done|].
  destruct (snd (App.loop cmds _)) as [s|e s|]; [| |done];
    destruct H as [Hs Ht]; (split; [done | lia]).
Qed.

Lemma Main_new_game_sound (name : string) (acts : list Main.Action) :
  name ≠ "" →
  ∃ os p w, Main_new_game name acts = Some (os, p, w)
          ∧ Main_sound p w
          ∧ Forall (λ o, o ≠ ArmoryLocked) os
          ∧ Main.turns p = moves_made os
          ∧ Main.health p = 100.
Proof.
  intros Hname. unfold Main_new_game.
  destruct (Main.init name) as [p0|] eqn:Hinit;
    [|by unfold Main.init in Hinit; rewrite decide_False in Hinit].
  destruct (Main_init_sound name p0 Hinit) as (Hs & Ht & Hh). simpl.
  destruct (Main_run_sound acts p0 _ Hs) as (os & p & w & Hrun & Hs' & Hos & Ht' & Hh').
  exists os, p, w. split_and!; [done | done | done | lia | by apply Hh'].
Qed.

(** * Taking with a full bag *)

(** With a full bag, taking an item of the room answers "bag is full" and
    changes nothing, provided neither earlier guard of [pick_up_item] fires;
    the two invariants say so. *)
Lemma App_take_full_bag (p : App.Player) (w : World) (room : Room) (item : string) :
  armory_open (App.position p) w → dungeon_empty w →
  w !! App.position p = Some room → item ∈ items room →
  (4 ≤ length (App.inventory p))%nat →
  App.pick_up_item p w item = Some (BagFull, p, w).
Proof.
  intros Harm Hdun Hroom Hin Hfull.
  rewrite (App_pick_up_item_unfold _ _ _ _ Hroom).
  assert (Hitems : items room ≠ []) by (intros E; rewrite E in Hin; by apply elem_of_nil in Hin).
  rewrite (bool_decide_eq_false_2 (items room = [])) by done.
  assert (Hguard : bool_decide (App.position p = "Armory") && get_locked room = false).
  { destruct (decide (App.position p = "Armory")) as [Hpos|Hpos].
    - rewrite Hpos in Hroom. rewrite (Harm Hpos room Hroom). apply andb_false_r.
    - by rewrite (bool_decide_eq_false_2 _ Hpos). }
  rewrite Hguard.
  assert (Hdark : App.too_dark p room = false).
  { unfold App.too_dark. destruct (decide (App.position p = "Dungeon")) as [Hpos|Hpos].
    - rewrite Hpos in Hroom. by rewrite (Hdun room Hroom) in Hitems.
    - by rewrite (bool_decide_eq_false_2 _ Hpos). }
  rewrite Hdark. unfold App_take_in_the_light.
  apply list_in_true in Hin. rewrite Hin.
  destruct (decide (length (App.inventory p) < 4)%nat); [lia | done].
Qed.

Lemma Main_take_full_bag (p : Main.Player) (w : World) (room : Room) (item : string) :
  armory_open (Main.position p) w → dungeon_empty w →
  w !! Main.position p = Some room → item ∈ items room →
  (4 ≤ length (Main.inventory p))%nat →
  Main.pick_up_item p w item = Some (BagFull, p, w).
Proof.
  intros Harm Hdun Hroom Hin Hfull.
  rewrite (Main_pick_up_item_unfold _ _ _ _ Hroom).
  assert (Hitems : items room ≠ []) by (intros E; rewrite E in Hin; by apply elem_of_nil in Hin).
  rewrite (bool_decide_eq_false_2 (items room = [])) by done.
  assert (Hguard : bool_decide (Main.position p = "Armory") && get_locked room = false).
  { destruct (decide (Main.position p = "Armory")) as [Hpos|Hpos].
    - rewrite Hpos in Hroom. rewrite (Harm Hpos room Hroom). apply andb_false_r.
    - by rewrite (bool_decide_eq_false_2 _ Hpos). }
  rewrite Hguard.
  assert (Hdark : Main.too_dark p room = false).
  { unfold Main.too_dark. destruct (decide (Main.position p = "Dungeon")) as [Hpos|Hpos].
    - rewrite Hpos in Hroom. by rewrite (Hdun room Hroom) in Hitems.
    - by rewrite (bool_decide_eq_false_2 _ Hpos). }
  rewrite Hdark. unfold Main_take_in_the_light.
  apply list_in_true in Hin. rewrite Hin.
  destruct (decide (length (Main.inventory p) < 4)%nat); [lia | done].
Qed.

(** [pick_up_item] with a full bag on an item of the room, whatever the
    state: nothing changes, and the answer is that of the first guard that
    fires, "bag is full" when none does. *)
Lemma App_pick_up_item_full_bag (p : App.Player) (w : World) (room : Room)
    (item : string) :
  w !! App.position p = Some room → item ∈ items room →
  (4 ≤ length (App.inventory p))%nat →
  App.pick_up_item p w item
  = Some (if bool_decide (App.position p = "Armory") && get_locked room
          then ArmoryLocked
          else if App.too_dark p room then TooDark else BagFull, p, w).
Proof.
  intros Hroom Hin Hfull.
  rewrite (App_pick_up_item_unfold _ _ _ _ Hroom).
  assert (Hitems : items room ≠ [])
    by (intros E; rewrite E in Hin; by apply elem_of_nil in Hin).
  rewrite (bool_decide_eq_false_2 (items room = [])) by done.
  destruct (bool_decide (App.position p = "Armory") && get_locked room); [done|].
  destruct (App.too_dark p room); [done|].
  unfold App_take_in_the_light. apply list_in_true in Hin. rewrite Hin.
  destruct (decide (length (App.inventory p) < 4)%nat); [lia | done].
Qed.

Lemma Main_pick_up_item_full_bag (p : Main.Player) (w : World) (room : Room)
    (item : string) :
  w !! Main.position p = Some room → item ∈ items room →
  (4 ≤ length (Main.inventory p))%nat →
  Main.pick_up_item p w item
  = Some (if bool_decide (Main.position p = "Armory") && get_locked room
          then ArmoryLocked
          else if Main.too_dark p room then TooDark else BagFull, p, w).
Proof.
  intros Hroom Hin Hfull.
  rewrite (Main_pick_up_item_unfold _ _ _ _ Hroom).
  assert (Hitems : items room ≠ [])
    by (intros E; rewrite E in Hin; by apply elem_of_nil in Hin).
  rewrite (bool_decide_eq_false_2 (items room = [])) by done.
  destruct (bool_decide (Main.position p = "Armory") && get_locked room); [done|].
  destruct (Main.too_dark p room); [done|].
  unfold Main_take_in_the_light. apply list_in_true in Hin. rewrite Hin.
  destruct (decide (length (Main.inventory p) < 4)%nat); [lia | done].
Qed.

(** As stated for every state the claim fails in the Streamlit game.  A
    play from a new game ends in the unlocked Armory with four items in the
    bag and the Sword still in the room; the player is saved ([to_dict]) and
    loaded ([from_dict]) into a session whose rooms are fresh from
    [initialize_game] ([main] builds the rooms once per session and the Load
    buttons replace the player only).  There the Armory is locked again, and
    a Take that names the Sword of the room answers "The armory door is
    locked!", not "bag is full". *)
Lemma take_with_full_bag_counterexample :
  let acts := [Main.ATake "Torch"; Main.AMove DEast; Main.ATake "Rusty Key";
               Main.ATake "Old Book"; Main.AMove DWest; Main.AMove DNorth;
               Main.AMove DEast; Main.ATake "Healing Herb"; Main.AMove DWest;
               Main.AMove DWest; Main.AMove DEast; Main.AMove DNorth;
               Main.ATake "Crowbar"; Main.AMove DSouth; Main.AMove DWest] in
  let p := Main.mkPlayer "Ann" "Armory"
             ["Torch"; "Old Book"; "Healing Herb"; "Crowbar"] 100
             ({[ "Armory" ]} ∪ {[ "Guard Tower" ]} ∪ {[ "Kitchen" ]}
              ∪ {[ "Courtyard" ]} ∪ {[ "Library" ]} ∪ {[ "Entrance Hall" ]})
             10 in
  (x ← Main_new_game "Ann" acts; Some (snd (fst x))) = Some p
  ∧ Main.from_dict (Main.to_dict p) = Some p
  ∧ items <$> Main.initialize_game !! Main.position p = Some ["Sword"]
  ∧ length (Main.inventory p) = 4%nat
  ∧ Main.pick_up_item p Main.initialize_game "Sword"
    = Some (ArmoryLocked, p, Main.initialize_game)
  ∧ ArmoryLocked ≠ BagFull.
Proof.
  split; [vm_compute; reflexivity|].
  split; [apply Main_from_dict_to_dict; discriminate|].
  split; [reflexivity|]. split; [reflexivity|]. split; [reflexivity|].
  discriminate.
Qed.

(** C6, amended.  A Take that names an item present in the current room
    while the inventory holds four items (or more) changes nothing, neither
    the room's items nor the inventory nor anything else, and answers "bag
    is full" unless an earlier guard of [pick_up_item] answers first: the
    locked answer for a player in the Armory while it is locked, the
    too-dark answer in the dark Dungeon without the Torch.  In every state
    either game reaches from its start neither guard fires on such a room,
    and the answer is "bag is full". *)
Theorem take_with_full_bag :
  (∀ (p : App.Player) (rooms : World) (room : Room) (item : string),
     rooms !! App.position p = Some room →
     item ∈ items room →
     (4 ≤ length (App.inventory p))%nat →
     App.pick_up_item p rooms item
     = Some (if bool_decide (App.position p = "Armory") && get_locked room
             then ArmoryLocked
             else if App.too_dark p room then TooDark else BagFull, p, rooms))
  ∧ (∀ (p : Main.Player) (rooms : World) (room : Room) (item : string),
     rooms !! Main.position p = Some room →
     item ∈ items room →
     (4 ≤ length (Main.inventory p))%nat →
     Main.pick_up_item p rooms item
     = Some (if bool_decide (Main.position p = "Armory") && get_locked room
             then ArmoryLocked
             else if Main.too_dark p room then TooDark else BagFull, p, rooms))
  ∧ (∀ (name : string) (cmds : list App.Command) (os : list Outcome)
     (s : App.Session) (room : Room) (item : string),
     App.main name cmds = (os, App.Waiting s) →
     App.rooms s !! App.position (App.player s) = Some room →
     item ∈ items room →
     length (App.inventory (App.player s)) = 4%nat →
     App.pick_up_item (App.player s) (App.rooms s) item
     = Some (BagFull, App.player s, App.rooms s))
  ∧ (∀ (name : string) (acts : list Main.Action) (os : list Outcome)
     (p : Main.Player) (w : World) (room : Room) (item : string),
     Main_new_game name acts = Some (os, p, w) →
     w !! Main.position p = Some room →
     item ∈ items room →
     length (Main.inventory p) = 4%nat →
     Main.pick_up_item p w item = Some (BagFull, p, w)).
Proof.
  split_and!.
  - apply App_pick_up_item_full_bag.
  - apply Main_pick_up_item_full_bag.
  - intros name cmds os s room item Hmain Hroom Hin Hfull.
    pose proof (App_main_sound name cmds) as [_ Hs]. rewrite Hmain in Hs.
    simpl in Hs. destruct Hs as [(_ & Harm & Hdun & _) _].
    apply (App_take_full_bag _ _ room); try done. lia.
  - intros name acts os p w room item Hgame Hroom Hin Hfull.
    assert (Hname : name ≠ "").
    { intros ->. unfold Main_new_game in Hgame. simpl in Hgame. done. }
    destruct (Main_new_game_sound name acts Hname)
      as (os' & p' & w' & Hgame' & (_ & Harm & Hdun & _) & _).
    rewrite Hgame in Hgame'. injection Hgame' as <- <- <-.
    apply (Main_take_full_bag _ _ room); try done. lia.
Qed.

(** The Crowbar of the Guard Tower and a bag with the Torch, the Rusty Key,
    the Old Book and the Healing Herb: "bag is full", on the state written
    out and at the end of the play that reaches it; and the Sword of a
    locked Armory for a loaded player with a full bag: the locked answer,
    with nothing changed. *)
Lemma take_with_full_bag_witness :
  let cmds := [App.CTake "Torch"; App.CMove "east"; App.CTake "Rusty Key";
               App.CTake "Old Book"; App.CMove "west"; App.CMove "north";
               App.CMove "east"; App.CTake "Healing Herb"; App.CMove "west";
               App.CMove "north"] in
  let acts := [Main.ATake "Torch"; Main.AMove DEast; Main.ATake "Rusty Key";
               Main.ATake "Old Book"; Main.AMove DWest; Main.AMove DNorth;
               Main.AMove DEast; Main.ATake "Healing Herb"; Main.AMove DWest;
               Main.AMove DNorth] in
  let pa := App.mkPlayer "Ann" "Guard Tower"
              ["Torch"; "Rusty Key"; "Old Book"; "Healing Herb"] 100
              ({[ "Guard Tower" ]} ∪ {[ "Entrance Hall" ]}) in
  let pm := Main.mkPlayer "Ann" "Armory"
              ["Torch"; "Old Book"; "Healing Herb"; "Crowbar"] 100
              ({[ "Armory" ]} ∪ {[ "Courtyard" ]}) 9 in
  App.pick_up_item pa App.castle "Crowbar" = Some (BagFull, pa, App.castle)
  ∧ Main.pick_up_item pm Main.initialize_game "Sword"
    = Some (ArmoryLocked, pm, Main.initialize_game)
  ∧ (∃ os s room,
     App.main "Ann" cmds = (os, App.Waiting s)
     ∧ App.rooms s !! App.position (App.player s) = Some room
     ∧ "Crowbar" ∈ items room
     ∧ length (App.inventory (App.player s)) = 4%nat
     ∧ App.pick_up_item (App.player s) (App.rooms s) "Crowbar"
       = Some (BagFull, App.player s, App.rooms s))
  ∧ (∃ os p w room,
     Main_new_game "Ann" acts = Some (os, p, w)
     ∧ w !! Main.position p = Some room
     ∧ "Crowbar" ∈ items room
     ∧ length (Main.inventory p) = 4%nat
     ∧ Main.pick_up_item p w "Crowbar" = Some (BagFull, p, w)).
Proof.
  intros cmds acts pa pm. split_and!.
  - assert (H1 : App.castle !! App.position pa
                 = Some (App.room "A tall tower with a view of the entire castle."
                           None (Some "Courtyard") None None ["Crowbar"] None None))
      by reflexivity.
    assert (H2 : "Crowbar" ∈ items (App.room "A tall tower with a view of the entire castle."
                           None (Some "Courtyard") None None ["Crowbar"] None None))
      by (simpl; apply list_elem_of_here).
    assert (H3 : (4 ≤ length (App.inventory pa))%nat) by (simpl; lia).
    exact (proj1 take_with_full_bag pa App.castle _ "Crowbar" H1 H2 H3).
  - assert (H1 : Main.initialize_game !! Main.position pm
                 = Some (Main.room "⚔️ A room filled with weapons and armor. The door is locked with an old iron lock."
                           None None (Some "Courtyard") None ["Sword"] (Some true) None "⚔️"))
      by reflexivity.
    assert (H2 : "Sword" ∈ items (Main.room "⚔️ A room filled with weapons and armor. The door is locked with an old iron lock."
                           None None (Some "Courtyard") None ["Sword"] (Some true) None "⚔️"))
      by (simpl; apply list_elem_of_here).
    assert (H3 : (4 ≤ length (Main.inventory pm))%nat) by (simpl; lia).
    exact (proj1 (proj2 take_with_full_bag) pm Main.initialize_game _ "Sword" H1 H2 H3).
  - pose (room := App.room "A tall tower with a view of the entire castle."
                    None (Some "Courtyard") None None ["Crowbar"] None None).
    assert (Hfacts :
      (s ← App_waiting (App.main "Ann" cmds);
       Some (App.rooms s !! App.position (App.player s),
             length (App.inventory (App.player s))))
      = Some (Some room, 4%nat)) by (vm_compute; reflexivity).
    destruct (App.main "Ann" cmds) as [os r] eqn:Hmain.
    destruct r as [s|e s|]; [|discriminate Hfacts|discriminate Hfacts].
    injection Hfacts as H1 H3.
    assert (H2 : "Crowbar" ∈ items room) by (simpl; apply list_elem_of_here).
    exists os, s, room. split_and!; [reflexivity | exact H1 | exact H2 | exact H3 | ].
    exact (proj1 (proj2 (proj2 take_with_full_bag))
             "Ann" cmds os s room "Crowbar" Hmain H1 H2 H3).
  - pose (room := Main.room "🗼 A tall tower with a view of the entire castle. Arrow slits let in shafts of light."
                    None (Some "Courtyard") None None ["Crowbar"] None None "🗼").
    assert (Hfacts :
      (x ← Main_new_game "Ann" acts;
       Some (snd x !! Main.position (snd (fst x)),
             length (Main.inventory (snd (fst x)))))
      = Some (Some room, 4%nat)) by (vm_compute; reflexivity).
    destruct (Main_new_game "Ann" acts) as [[[os p] w]|] eqn:Hgame;
      [|discriminate Hfacts].
    injection Hfacts as H1 H3.
    assert (H2 : "Crowbar" ∈ items room) by (simpl; apply list_elem_of_here).
    exists os, p, w, room.
    split_and!; [reflexivity | exact H1 | exact H2 | exact H3 | ].
    exact (proj2 (proj2 (proj2 take_with_full_bag))
             "Ann" acts os p w room "Crowbar" Hgame H1 H2 H3).
Defined.

(** * The Armory is open to whoever stands in it *)

(** C10.  In every state either game reaches from its start by its
    commands, a player who stands in the Armory stands in an Armory whose
    [locked] flag is [False]; hence [pick_up_item] never gives its "armory
    door is locked" answer, neither during the play nor on the state
    reached.  (The plays do not raise either.) *)
Theorem armory_open_when_inside :
  (∀ (name : string) (cmds : list App.Command),
     Forall (λ o, o ≠ ArmoryLocked) (fst (App.main name cmds))
     ∧ match snd (App.main name cmds) with
       | App.Waiting s | App.Returned _ s =>
           (App.position (App.player s) = "Armory" →
            get_locked <$> App.rooms s !! "Armory" = Some false)
           ∧ (∀ item o p' w',
                App.pick_up_item (App.player s) (App.rooms s) item = Some (o, p', w') →
                o ≠ ArmoryLocked)
       | App.Raised => False
       end)
  ∧ (∀ (name : string) (acts : list Main.Action), name ≠ "" →
     ∃ os p w, Main_new_game name acts = Some (os, p, w)
       ∧ Forall (λ o, o ≠ ArmoryLocked) os
       ∧ (Main.position p = "Armory" → get_locked <$> w !! "Armory" = Some false)
       ∧ (∀ item o p' w',
            Main.pick_up_item p w item = Some (o, p', w') → o ≠ ArmoryLocked)).
Proof.
  split.
  - intros name cmds. destruct (App_main_sound name cmds) as [Hos Hs].
    split; [done|].
    destruct (snd (App.main name cmds)) as [s|e s|]; [| |done];
      destruct Hs as [(_ & Harm & _ & (_ & [armory Ha] & _)) _]; split.
    + intros Hpos. rewrite Ha. simpl. f_equal. by apply Harm.
    + intros item o p' w' Htake.
      apply App_pick_up_item_effect in Htake as [Heff _].
      by apply (effect_never_armory_locked Heff).
    + intros Hpos. rewrite Ha. simpl. f_equal. by apply Harm.
    + intros item o p' w' Htake.
      apply App_pick_up_item_effect in Htake as [Heff _].
      by apply (effect_never_armory_locked Heff).
  - intros name acts Hname.
    destruct (Main_new_game_sound name acts Hname)
      as (os & p & w & Hgame & (_ & Harm & _ & (_ & [armory Ha] & _)) & Hos & _).
    exists os, p, w. split_and!; [done | done | | ].
    + intros Hpos. rewrite Ha. simpl. f_equal. by apply Harm.
    + intros item o p' w' Htake.
      apply Main_pick_up_item_effect in Htake as [Heff _].
      by apply (effect_never_armory_locked Heff).
Qed.

(** The walk through the Library for the key and on into the Armory, in the
    Streamlit game. *)
Lemma armory_open_when_inside_witness :
  ∃ os p w,
    Main_new_game "Ann" [Main.AMove DEast; Main.ATake "Rusty Key"; Main.AMove DWest;
                         Main.AMove DNorth; Main.AMove DWest; Main.ATake "Sword"]
    = Some (os, p, w)
    ∧ Forall (λ o, o ≠ ArmoryLocked) os
    ∧ (Main.position p = "Armory" → get_locked <$> w !! "Armory" = Some false)
    ∧ (∀ item o p' w',
         Main.pick_up_item p w item = Some (o, p', w') → o ≠ ArmoryLocked).
Proof.
  apply (proj2 armory_open_when_inside "Ann"). discriminate.
Defined.

(** Outside the commands of a play: a player saved in the Armory and loaded
    (by [from_dict]) into a session whose rooms are fresh from
    [initialize_game] does stand in a locked Armory. *)
Remark Main_loaded_player_in_locked_armory :
  ∃ p, Main.from_dict (Main.to_dict
         (Main.mkPlayer "Ann" "Armory" [] 100 {[ "Armory" ]} 5)) = Some p
     ∧ Main.pick_up_item p Main.initialize_game "Sword"
       = Some (ArmoryLocked, p, Main.initialize_game).
Proof.
  eexists. split.
  - apply Main_from_dict_to_dict. discriminate.
  - reflexivity.
Qed.

(** * The turn counters *)

(** In the console game the claim fails: one Look from the start, no move
    made, and the turn counter of [game_loop] stands at 1. *)
Lemma turn_counter_counterexample :
  moves_made (fst (App.main "Ann" [App.CLook])) = 0
  ∧ App.turns <$> App_waiting (App.main "Ann" [App.CLook]) = Some 1.
Proof. split; vm_compute; reflexivity. Qed.

(** C4, amended.  In the Streamlit game [player.turns] goes up by one on
    each successful move and is left alone by every other action, so after
    any play it has grown by the number of successful moves (and from a new
    game it equals that number).  The console game has no turn count on the
    player: the counter of [game_loop] goes up by one for every command
    read, whatever the command, so it equals the number of commands read. *)
Theorem turn_counters :
  (∀ (a : Main.Action) (p : Main.Player) (w : World) o p' w',
     Main.step a p w = Some (o, p', w') →
     Main.turns p' = Main.turns p + (if is_moved o then 1 else 0)
     ∧ (is_moved o = true → ∃ d, a = Main.AMove d))
  ∧ (∀ (acts : list Main.Action) (p : Main.Player) (w : World) os p' w',
     Main.run acts p w = Some (os, p', w') →
     Main.turns p' = Main.turns p + moves_made os)
  ∧ (∀ (name : string) (acts : list Main.Action), name ≠ "" →
     ∃ os p w, Main_new_game name acts = Some (os, p, w)
             ∧ Main.turns p = moves_made os)
  ∧ (∀ (name : string) (cmds : list App.Command),
     match snd (App.main name cmds) with
     | App.Waiting s | App.Returned _ s =>
         App.turns s = Z.of_nat (length (fst (App.main name cmds)))
     | App.Raised => False
     end).
Proof.
  split_and!.
  - intros a p w o p' w' Hstep.
    apply Main_step_effect in Hstep as (_ & Ht & Hmv & _). done.
  - intros acts. induction acts as [|a acts IH]; intros p w os p' w' Hrun.
    + injection Hrun as <- <- <-. unfold moves_made. simpl. lia.
    + simpl in Hrun.
      destruct (Main.step a p w) as [[[o p1] w1]|] eqn:Hstep; [|done].
      simpl in Hrun.
      destruct (Main.run acts p1 w1) as [[[os1 p2] w2]|] eqn:Hrest; [|done].
      injection Hrun as <- <- <-.
      apply Main_step_effect in Hstep as (_ & Ht & _).
      rewrite (IH _ _ _ _ _ Hrest), Ht, moves_made_cons. lia.
  - intros name acts Hname.
    destruct (Main_new_game_sound name acts Hname)
      as (os & p & w & Hgame & _ & _ & Ht & _).
    by exists os, p, w.
  - intros name cmds. destruct (App_main_sound name cmds) as [_ Hs].
    destruct (snd (App.main name cmds)) as [s|e s|]; [| |done];
      by destruct Hs as [_ Ht].
Qed.

(** The Streamlit game: one move north from the Entrance Hall; a play
    resumed at 20 turns, with one successful move among three actions; from
    a new game, six buttons, four of them successful moves. *)
Lemma turn_counters_witness :
  let p0 := Main.mkPlayer "Ann" "Entrance Hall" [] 100 {[ "Entrance Hall" ]} 20 in
  (∃ o p' w',
     Main.step (Main.AMove DNorth) p0 Main.initialize_game = Some (o, p', w')
     ∧ Main.turns p' = 21
     ∧ Main.turns p' = Main.turns p0 + (if is_moved o then 1 else 0)
     ∧ (is_moved o = true → ∃ d, Main.AMove DNorth = Main.AMove d))
  ∧ (∃ os p' w',
     Main.run [Main.ATake "Torch"; Main.AMove DNorth; Main.AMove DWest]
              p0 Main.initialize_game = Some (os, p', w')
     ∧ Main.turns p' = 21
     ∧ Main.turns p' = Main.turns p0 + moves_made os)
  ∧ ("Ann" ≠ ""
     ∧ ∃ os p w,
         Main_new_game "Ann" [Main.ALook; Main.AMove DNorth; Main.AMove DWest;
                              Main.AMove DSouth; Main.ATalk; Main.AMove DNorth]
         = Some (os, p, w)
         ∧ Main.turns p = moves_made os).
Proof.
  intros p0. split; [|split].
  - assert (Ht : Main.turns ∘ snd ∘ fst
                 <$> Main.step (Main.AMove DNorth) p0 Main.initialize_game
                 = Some 21) by (vm_compute; reflexivity).
    destruct (Main.step (Main.AMove DNorth) p0 Main.initialize_game)
      as [[[o p'] w']|] eqn:Hstep; [|discriminate Ht].
    injection Ht as Ht. exists o, p', w'.
    split; [reflexivity|]. split; [exact Ht|].
    exact (proj1 turn_counters _ _ _ _ _ _ Hstep).
  - assert (Ht : Main.turns ∘ snd ∘ fst
                 <$> Main.run [Main.ATake "Torch"; Main.AMove DNorth; Main.AMove DWest]
                       p0 Main.initialize_game
                 = Some 21) by (vm_compute; reflexivity).
    destruct (Main.run [Main.ATake "Torch"; Main.AMove DNorth; Main.AMove DWest]
                p0 Main.initialize_game)
      as [[[os p'] w']|] eqn:Hrun; [|discriminate Ht].
    injection Ht as Ht. exists os, p', w'.
    split; [reflexivity|]. split; [exact Ht|].
    exact (proj1 (proj2 turn_counters) _ _ _ _ _ _ Hrun).
  - assert (Hn : "Ann" ≠ "") by discriminate. split; [exact Hn|].
    exact (proj1 (proj2 (proj2 turn_counters)) "Ann" _ Hn).
Defined.

(** * Health decay *)

(** In the Streamlit game the claim fails: after 51 successful moves
    [turns] is 51 and the health 100, and after one more action (a Look),
    or after three more, the health is still 100. *)
Lemma health_decay_counterexample :
  Main_stats (Main_new_game "Ann" fifty_one_moves) = Some (51, 51, 100)
  ∧ Main_stats (Main_new_game "Ann" (fifty_one_moves ++ [Main.ALook]))
    = Some (51, 51, 100)
  ∧ Main_stats (Main_new_game "Ann" (fifty_one_moves
                  ++ [Main.ALook; Main.ATalk; Main.AMove DSouth]))
    = Some (52, 52, 100).
Proof. split_and!; vm_compute; reflexivity. Qed.

Lemma App_iteration_decay (c : App.Command) (s : App.Session) o s' e :
  App.iteration c s = Some (o, s', e) →
  c ≠ App.CQuit → e ≠ Some App.Won →
  ∃ p1 w1, App.dispatch c (App.player s) (App.rooms s) = Some (o, p1, w1)
    ∧ App.rooms s' = w1 ∧ App.turns s' = App.turns s + 1
    ∧ (50 < App.turns s' →
         App.health (App.player s') = App.health p1 - 5
       ∧ (e = Some App.Lost ↔ App.health (App.player s') ≤ 0)
       ∧ (e = None ↔ 0 < App.health (App.player s')))
    ∧ (App.turns s' ≤ 50 → App.player s' = p1 ∧ e = None).
Proof.
  unfold App.iteration. intros H Hc He.
  destruct (App.rooms s !! App.position (App.player s)); [|done]. simpl in H.
  destruct (App.dispatch c (App.player s) (App.rooms s)) as [[[o1 p1] w1]|]; [|done].
  simpl in H. exists p1, w1.
  assert (H' : (if fst (App.check_win_condition p1)
                then Some (o1, App.mkSession p1 w1 (App.turns s + 1), Some App.Won)
                else if decide (App.turns s + 1 > 50) then
                  if decide (App.health p1 - 5 <= 0)
                  then Some (o1, App.mkSession (App.set_health p1 (App.health p1 - 5))
                                               w1 (App.turns s + 1), Some App.Lost)
                  else Some (o1, App.mkSession (App.set_health p1 (App.health p1 - 5))
                                               w1 (App.turns s + 1), None)
                else Some (o1, App.mkSession p1 w1 (App.turns s + 1), None))
               = Some (o, s', e)) by (by destruct c).
  clear H. destruct (fst (App.check_win_condition p1)).
  { injection H' as <- <- <-. done. }
  destruct (decide (App.turns s + 1 > 50)).
  - destruct (decide (App.health p1 - 5 <= 0)); injection H' as <- <- <-; simpl;
      (split_and!; [done | done | done | | lia]); intros _;
      (split_and!; [done | split; (done || lia) | split; (done || lia)]).
  - injection H' as <- <- <-. simpl. split_and!; [done | done | done | lia | done].
Qed.

(** C5, amended.  In the console game, whose turn counter counts every
    command read: in an iteration whose counter is above 50 and whose
    command neither quits nor wins, 5 is taken from the health the
    command's handler left (so the health falls by 5, unless the command
    ate a Healing Herb first); when the result is 0 or less [game_loop]
    returns (the loss) and reads no further command, and otherwise it goes
    on.  Up to turn 50 nothing is taken.  The Streamlit game has no decay
    and no loss: no action lowers a health of at most 100, and after any
    play from a new game the health is 100. *)
Theorem health_decay :
  (∀ (c : App.Command) (s : App.Session) o s' e,
     App.iteration c s = Some (o, s', e) →
     c ≠ App.CQuit → e ≠ Some App.Won →
     App.turns s' = App.turns s + 1
     ∧ (50 < App.turns s' →
        ∃ p1 w1,
          App.dispatch c (App.player s) (App.rooms s) = Some (o, p1, w1)
          ∧ App.health (App.player s') = App.health p1 - 5
          ∧ (c ≠ App.CUse "Healing Herb" →
             App.health (App.player s') = App.health (App.player s) - 5)
          ∧ (e = Some App.Lost ↔ App.health (App.player s') ≤ 0)
          ∧ (e = None ↔ 0 < App.health (App.player s')))
     ∧ (App.turns s' ≤ 50 →
        e = None
        ∧ App.dispatch c (App.player s) (App.rooms s)
          = Some (o, App.player s', App.rooms s')))
  ∧ (∀ (c : App.Command) (cmds : list App.Command) (s : App.Session) o s',
     App.iteration c s = Some (o, s', Some App.Lost) →
     App.loop (c :: cmds) s = ([o], App.Returned App.Lost s')
     ∧ App.returned App.Lost = false)
  ∧ (∀ (a : Main.Action) (p : Main.Player) (w : World) o p' w',
     Main.step a p w = Some (o, p', w') →
     Main.health p ≤ 100 → Main.health p ≤ Main.health p')
  ∧ (∀ (name : string) (acts : list Main.Action), name ≠ "" →
     ∃ os p w, Main_new_game name acts = Some (os, p, w) ∧ Main.health p = 100).
Proof.
  split_and!.
  - intros c s o s' e Hit Hc He.
    destruct (App_iteration_decay c s o s' e Hit Hc He)
      as (p1 & w1 & Hd & Hw & Ht & Hhigh & Hlow).
    split; [done|]. split.
    + intros Hgt. destruct (Hhigh Hgt) as (Hh & Hlost & Hgo).
      exists p1, w1. split_and!; try done.
      intros Hherb. apply App_dispatch_effect in Hd as (_ & Hsame & _).
      rewrite Hh, (Hsame Hherb). done.
    + intros Hle. destruct (Hlow Hle) as [Hp ->]. split; [done|].
      by rewrite Hd, Hp, Hw.
  - intros c cmds s o s' Hit. simpl. by rewrite Hit.
  - intros a p w o p' w' Hstep Hle.
    apply Main_step_effect in Hstep as (_ & _ & _ & Hh). by apply Hh.
  - intros name acts Hname.
    destruct (Main_new_game_sound name acts Hname)
      as (os & p & w & Hgame & _ & _ & _ & Hh).
    by exists os, p, w.
Qed.

(** Turn 51 of the console game, spent looking around the Entrance Hall at
    health 5: the health falls to 0, the loop returns and the commands that
    follow are not read.  In the Streamlit game a Look at 60 turns leaves
    the health, and a new game played for 51 moves and a Look ends at
    health 100. *)
Lemma health_decay_witness :
  let s := App.mkSession (App.mkPlayer "Ann" "Entrance Hall" [] 5 {[ "Entrance Hall" ]})
                         App.castle 50 in
  let pm := Main.mkPlayer "Ann" "Courtyard" ["Torch"] 70
              ({[ "Courtyard" ]} ∪ {[ "Entrance Hall" ]}) 60 in
  (∃ o s',
     App.iteration App.CLook s = Some (o, s', Some App.Lost)
     ∧ App.health (App.player s') = 0
     ∧ App.turns s' = App.turns s + 1
     ∧ (50 < App.turns s' →
        ∃ p1 w1,
          App.dispatch App.CLook (App.player s) (App.rooms s) = Some (o, p1, w1)
          ∧ App.health (App.player s') = App.health p1 - 5
          ∧ (App.CLook ≠ App.CUse "Healing Herb" →
             App.health (App.player s') = App.health (App.player s) - 5)
          ∧ (Some App.Lost = Some App.Lost ↔ App.health (App.player s') ≤ 0)
          ∧ (Some App.Lost = None ↔ 0 < App.health (App.player s')))
     ∧ (App.turns s' ≤ 50 →
        Some App.Lost = None
        ∧ App.dispatch App.CLook (App.player s) (App.rooms s)
          = Some (o, App.player s', App.rooms s'))
     ∧ App.loop [App.CLook; App.CMove "north"; App.CTake "Torch"] s
       = ([o], App.Returned App.Lost s')
     ∧ App.returned App.Lost = false)
  ∧ (∃ o p' w',
     Main.step Main.ALook pm Main.initialize_game = Some (o, p', w')
     ∧ Main.health pm ≤ 100
     ∧ Main.health pm ≤ Main.health p')
  ∧ ("Ann" ≠ ""
     ∧ ∃ os p w,
         Main_new_game "Ann" (fifty_one_moves ++ [Main.ALook]) = Some (os, p, w)
         ∧ Main.health p = 100).
Proof.
  intros s pm. split; [|split].
  - assert (Hfacts :
      (x ← App.iteration App.CLook s;
       Some (snd x, App.health (App.player (snd (fst x)))))
      = Some (Some App.Lost, 0)) by (vm_compute; reflexivity).
    destruct (App.iteration App.CLook s) as [[[o s'] e]|] eqn:Hit;
      [|discriminate Hfacts].
    injection Hfacts as -> Hh. exists o, s'.
    split; [reflexivity|]. split; [exact Hh|].
    assert (Hc : App.CLook ≠ App.CQuit) by discriminate.
    assert (He : Some App.Lost ≠ Some App.Won) by discriminate.
    destruct (proj1 health_decay App.CLook s o s' (Some App.Lost) Hit Hc He)
      as (Ht & Hhigh & Hlow).
    split; [exact Ht|]. split; [exact Hhigh|]. split; [exact Hlow|].
    exact (proj1 (proj2 health_decay) App.CLook
             [App.CMove "north"; App.CTake "Torch"] s o s' Hit).
  - destruct (Main.step Main.ALook pm Main.initialize_game)
      as [[[o p'] w']|] eqn:Hstep; [|vm_compute in Hstep; discriminate Hstep].
    assert (Hle : Main.health pm ≤ 100) by (simpl; lia).
    exists o, p', w'. split; [reflexivity|]. split; [exact Hle|].
    exact (proj1 (proj2 (proj2 health_decay)) _ _ _ _ _ _ Hstep Hle).
  - assert (Hn : "Ann" ≠ "") by discriminate. split; [exact Hn|].
    exact (proj2 (proj2 (proj2 health_decay)) "Ann" _ Hn).
Defined.
